(** * Crawl orchestration of [backend/amazon_crawler.py]

    A shallow embedding of the class [AmazonCrawler]: the fetch
    ([_safe_get] under its [@retry] decorator), the field extraction
    ([extract_product_data]), the traversal ([crawl_category]), the
    persistence ([_save_data]) and the entry point ([main]).

    The browser, the clock, the random generator, the signal source and the
    disk are collaborators: they are an [Env] of oracles, and the program is
    a state-and-exception computation over a [World] that records what the
    program did to them (navigations, sleeps, writes, log lines).

    A Python [str] is held as the bytes of its UTF-8 encoding, and a path
    as [pathlib] holds it on POSIX. *)

From Stdlib Require Import ZArith Lia Ascii.
From stdpp Require Import base option list strings gmap pretty.

Local Open Scope Z_scope.
Local Open Scope string_scope.
Local Open Scope list_scope.

(** ** Python values *)

(** The exception classes the module raises or catches.  All three derive
    from [Exception]; [str e] is the message. *)
Inductive exn : Type :=
  | GracefulExit (msg : string)
  | PlaywrightTimeoutError (msg : string)
  | Exception (msg : string).

Definition str (e : exn) : string :=
  match e with
  | GracefulExit m | PlaywrightTimeoutError m | Exception m => m
  end.

Inductive result (A : Type) : Type :=
  | Ok (a : A)
  | Raise (e : exn).
Arguments Ok {A} a.
Arguments Raise {A} e.

(** The dict built at lines 341-350.  [price], [rating] and
    [reviews_count] hold [None] when absent. *)
Record Product : Type := mkProduct {
  title : string;
  price : option string;
  rating : option string;
  reviews_count : option string;
  features : list string;
  details : gmap string string;
  url : string;
  timestamp : string
}.

#[global] Instance Product_eq_dec : EqDecision Product.
Proof. solve_decision. Defined.

(** ** Strings *)

Module Str.

Definition lower_ascii (c : ascii) : ascii :=
  let n := N_of_ascii c in
  if ((65 <=? n) && (n <=? 90))%N then ascii_of_N (n + 32) else c.

Definition byte (n : N) (c : ascii) : bool := (N_of_ascii c =? n)%N.

(** [s.lower()], as far as ASCII goes.  The characters that lower to
    ASCII are the letters [A] to [Z], the Kelvin sign U+212A (bytes 226
    132 170), which lowers to [k], and U+0130 (bytes 196 176), which
    lowers to [i] and U+0307 (bytes 204 135).  Every other cased character
    lowers to characters outside ASCII and is left as it is: the result
    has the ASCII bytes of Python's at the same places, and so the same
    occurrences of an ASCII pattern. *)
Fixpoint lower (s : string) : string :=
  match s with
  | EmptyString => EmptyString
  | String c s1 =>
      let plain := String (lower_ascii c) (lower s1) in
      match s1 with
      | String c1 s2 =>
          if byte 196 c && byte 176 c1 then
            String "i" (String (ascii_of_N 204) (String (ascii_of_N 135) (lower s2)))
          else
            match s2 with
            | String c2 s3 =>
                if byte 226 c && byte 132 c1 && byte 170 c2 then String "k" (lower s3)
                else plain
            | EmptyString => plain
            end
      | EmptyString => plain
      end
  end.

(** [sub in s] *)
Fixpoint contains (sub s : string) : bool :=
  String.prefix sub s ||
  match s with
  | EmptyString => false
  | String _ s' => contains sub s'
  end.

(** [s.startswith(p)] *)
Definition startswith (s p : string) : bool := String.prefix p s.

(** A byte that continues a character begun before it. *)
Definition is_continuation (c : ascii) : bool :=
  let n := N_of_ascii c in ((128 <=? n) && (n <? 192))%N.

(** [s[:n]]: the first [n] characters, each with all its bytes. *)
Fixpoint take (n : nat) (s : string) : string :=
  match s with
  | EmptyString => EmptyString
  | String c s' =>
      if is_continuation c then String c (take n s')
      else
        match n with
        | O => EmptyString
        | S n' => String c (take n' s')
        end
  end.

(** The characters [str.strip()] removes, by the length of their
    encoding: U+0009 to U+000D and U+001C to U+0020; U+0085 and U+00A0;
    U+1680, U+2000 to U+200A, U+2028, U+2029, U+202F, U+205F and U+3000. *)
Definition space1 (c : ascii) : bool :=
  let n := N_of_ascii c in
  ((9 <=? n) && (n <=? 13) || (28 <=? n) && (n <=? 32))%N.

Definition space2 (c c1 : ascii) : bool :=
  byte 194 c && (byte 133 c1 || byte 160 c1).

Definition space3 (c c1 c2 : ascii) : bool :=
  let n2 := N_of_ascii c2 in
  byte 225 c && byte 154 c1 && byte 128 c2
  || byte 226 c && byte 128 c1
     && ((128 <=? n2) && (n2 <=? 138) || byte 168 c2 || byte 169 c2 || byte 175 c2)%N
  || byte 226 c && byte 129 c1 && byte 159 c2
  || byte 227 c && byte 128 c1 && byte 128 c2.

(** [s.lstrip()] *)
Fixpoint lstrip (s : string) : string :=
  match s with
  | EmptyString => EmptyString
  | String c s1 =>
      if space1 c then lstrip s1
      else
        match s1 with
        | String c1 s2 =>
            if space2 c c1 then lstrip s2
            else
              match s2 with
              | String c2 s3 => if space3 c c1 c2 then lstrip s3 else s
              | EmptyString => s
              end
        | EmptyString => s
        end
  end.

(** [s.rstrip()]: [s] is cut where what is left of it is white space
    only. *)
Fixpoint rstrip (s : string) : string :=
  match s with
  | EmptyString => EmptyString
  | String c s' =>
      match lstrip s with
      | EmptyString => EmptyString
      | _ => String c (rstrip s')
      end
  end.

(** [s.strip()] *)
Definition strip (s : string) : string := rstrip (lstrip s).

End Str.

(** [s.split(sep)] for a separator of one character. *)
Fixpoint split (sep : ascii) (s : string) : list string :=
  match s with
  | EmptyString => [EmptyString]
  | String c s' =>
      if Ascii.eqb c sep then EmptyString :: split sep s'
      else
        match split sep s' with
        | [] => [String c EmptyString]
        | piece :: pieces => String c piece :: pieces
        end
  end.

(** ** Paths

    [pathlib.Path] on POSIX: a path is its root ([/], [//] or none) and
    its components, the empty ones and [.] dropped. *)

Module Path.

Record t : Type := mk { root : string; parts : list string }.

Definition root_of (s : string) : string :=
  match s with
  | String "/" (String "/" (String "/" _)) => "/"
  | String "/" (String "/" _) => "//"
  | String "/" _ => "/"
  | _ => ""
  end.

Definition parts_of (s : string) : list string :=
  filter (λ part, part ≠ "" ∧ part ≠ ".") (split "/" s).

(** [Path(s)] *)
Definition parse (s : string) : t := mk (root_of s) (parts_of s).

(** [p / s]: an absolute [s] replaces [p]. *)
Definition joinpath (p : t) (s : string) : t :=
  if String.eqb (root_of s) "" then mk (root p) (parts p ++ parts_of s) else parse s.

Fixpoint join (sep : string) (l : list string) : string :=
  match l with
  | [] => ""
  | [part] => part
  | part :: l' => part +:+ sep +:+ join sep l'
  end.

(** [str(p)] *)
Definition str (p : t) : string :=
  match root p, parts p with
  | "", [] => "."
  | r, l => r +:+ join "/" l
  end.

End Path.

(** ** The rendering collaborator *)

(** An element handle or a locator resolved to one element. *)
Record Element : Type := mkElement {
  inner_text : result string;
  get_attribute : string → result (option string);
  (** [element.locator(selector).inner_text()] *)
  locator_inner_text : string → result string
}.

(** What the page currently shown answers to each query.  Time-outs are in
    milliseconds, as the source passes them. *)
Record Page : Type := mkPage {
  page_url : string;
  page_title : result string;
  page_content : result string;
  (** [page.locator(selector).count()] *)
  locator_count : string → result nat;
  (** [page.wait_for_selector(selector, timeout=t)] *)
  wait_for_selector : string → Z → result (option Element);
  (** [page.locator(selector).inner_text(timeout=t)] *)
  locator_text : string → Z → result string;
  (** [page.locator(selector).get_attribute(name, timeout=t)] *)
  locator_attribute : string → string → Z → result (option string);
  (** [page.locator(selector).all()] *)
  locator_all : string → result (list Element);
  (** [page.evaluate(script)] *)
  evaluate : string → result ();
  (** [page.mouse.move(x, y)] *)
  mouse_move : result ()
}.

Record Response : Type := mkResponse { status : Z }.

(** ** The environment and the world *)

Inductive Level : Type := Debug | Info | Warning | Error.

(** Argument of a sleep, in milliseconds: a constant, or
    [random.uniform(lo, hi)]. *)
Inductive Duration : Type :=
  | Fixed (ms : Z)
  | Uniform (lo hi : Z).

Inductive Event : Type :=
  | Log (lvl : Level) (msg : string)
  | Sleep (d : Duration)
  | Goto (target : string)
  | Evaluate (script : string)
  | MouseMove
  | NewPage
  | ClosePage
  | ToCsv (path : string) (data : list Product)
  (** [products_data.append(product_data)] (line 401) *)
  | Append (product_data : Product).

(** The oracles.  The instant is the number of suspension points passed so
    far, the draw is the number of random numbers consumed so far. *)
Record Env : Type := mkEnv {
  (** a SIGINT or SIGTERM is delivered at this instant *)
  signal : nat → bool;
  (** [page.goto(url, ...)]: what it returns or raises, and the page shown
      afterwards *)
  goto : string → nat → result (option Response) * Page;
  (** [_create_page] (lines 177-217) *)
  new_page : nat → result Page;
  (** [page.close()] *)
  close_page : nat → result ();
  (** the raw random numbers *)
  entropy : nat → nat;
  (** [datetime.now().strftime('%Y%m%d_%H%M%S')] *)
  strftime : nat → string;
  (** [datetime.now().isoformat()] *)
  isoformat : nat → string;
  (** [df.to_csv(path, index=False)] *)
  to_csv : string → nat → result ();
  (** [AmazonCrawler(...)] (lines 465-468): what [__init__] raises, from
      the creation of the output directory, of the user-agent source or of
      the log file *)
  construct : result ();
  (** [signal.signal] for SIGINT and SIGTERM (lines 475-476) *)
  register : result ()
}.

Record World : Type := mkWorld {
  (** [self.is_shutting_down] *)
  is_shutting_down : bool;
  now : nat;
  draws : nat;
  page : Page;
  (** the list [products_data] of [crawl_category] *)
  products_data : list Product;
  files : gmap string (list Product);
  (** newest event first *)
  trace : list Event
}.

(** ** State and exceptions *)

Definition M (A : Type) : Type := World → result A * World.

#[global] Instance M_ret : MRet M := λ A a w, (Ok a, w).

#[global] Instance M_bind : MBind M := λ A B f m w,
  match m w with
  | (Ok a, w') => f a w'
  | (Raise e, w') => (Raise e, w')
  end.

#[global] Instance M_fmap : FMap M := λ A B f m w,
  match m w with
  | (Ok a, w') => (Ok (f a), w')
  | (Raise e, w') => (Raise e, w')
  end.

Definition raise {A} (e : exn) : M A := λ w, (Raise e, w).

(** [try: body  except: handler] for a handler that catches every class
    of [exn]. *)
Definition try_except {A} (body : M A) (handler : exn → M A) : M A := λ w,
  match body w with
  | (Ok a, w') => (Ok a, w')
  | (Raise e, w') => handler e w'
  end.

(** [try: body  finally: final] *)
Definition try_finally {A} (body : M A) (final : M ()) : M A := λ w,
  let '(r, w') := body w in
  match final w' with
  | (Ok _, w'') => (r, w'')
  | (Raise e, w'') => (Raise e, w'')
  end.

Definition get_flag : M bool := λ w, (Ok (is_shutting_down w), w).

Definition emit (ev : Event) : M () := λ w,
  (Ok (), mkWorld (is_shutting_down w) (now w) (draws w) (page w)
            (products_data w) (files w) (ev :: trace w)).

Definition logger (lvl : Level) (msg : string) : M () := emit (Log lvl msg).

Definition scroll_script : string :=
  "window.scrollBy(0, window.innerHeight * Math.random())".

(** [self]: the fields set by [__init__] (lines 40-44).  [max_retries] is
    stored and read nowhere.  The proxy pool (line 45) is read by
    [_get_random_proxy] alone, which belongs to the set-up of a session. *)
Record Crawler : Type := mkCrawler {
  base_url : string;
  output_dir : string;
  (** seconds *)
  delay_range : Z * Z;
  max_retries : Z
}.

Section AmazonCrawler.

Context (env : Env) (self : Crawler).

(** ** Suspension points, random numbers, the clock *)

(** One suspension point passes; a signal delivered meanwhile runs
    [initiate_shutdown] (lines 450-453, 470-472), which only ever sets the
    flag.  The two log lines of the handler are left out of the trace. *)
Definition tick : M () := λ w,
  (Ok (), mkWorld (is_shutting_down w || signal env (S (now w))) (S (now w))
            (draws w) (page w) (products_data w) (files w) (trace w)).

(** [await] of a collaborator call that answers [r]. *)
Definition await_value {A} (r : result A) : M A := λ w, (r, (tick w).2).

Definition await_page {A} (query : Page → result A) : M A := λ w,
  await_value (query (page w)) w.

Definition sleep (d : Duration) : M () := emit (Sleep d) ;; tick.

Definition draw : M nat := λ w,
  (Ok (entropy env (draws w)),
   mkWorld (is_shutting_down w) (now w) (S (draws w)) (page w)
     (products_data w) (files w) (trace w)).

(** [random.randint(lo, hi)] *)
Definition randint (lo hi : nat) : M nat :=
  r ← draw; mret (lo + r mod (hi - lo + 1))%nat.

(** [random.random()], in thousandths *)
Definition random_random : M nat := r ← draw; mret (r mod 1000)%nat.

Definition datetime_now_strftime : M string := λ w, (Ok (strftime env (now w)), w).

Definition datetime_now_isoformat : M string := λ w, (Ok (isoformat env (now w)), w).

(** [await page.goto(url, wait_until='networkidle', timeout=60000)] *)
Definition page_goto (target : string) : M (option Response) := λ w,
  let '(r, p) := goto env target (now w) in
  (r, (tick (mkWorld (is_shutting_down w) (now w) (draws w) p
               (products_data w) (files w) (Goto target :: trace w))).2).

Definition page_evaluate (script : string) : M () :=
  emit (Evaluate script) ;; await_page (λ p, evaluate p script).

Definition page_mouse_move : M () := emit MouseMove ;; await_page mouse_move.

(** ** [_safe_get] (lines 219-278) *)

(** Lines 230-240.  Only the random numbers that decide the control flow
    are drawn from [entropy]; the arguments of sleeps and of pointer moves
    stay with the collaborator. *)
Fixpoint scroll_steps (n : nat) : M () :=
  match n with
  | O => mret ()
  | S n' =>
      page_evaluate scroll_script ;;
      sleep (Uniform 500 2000) ;;
      r ← random_random;
      (if (500 <? r)%nat then page_mouse_move else mret ()) ;;
      scroll_steps n'
  end.

Definition scroll_randomly : M () := n ← randint 2 5; scroll_steps n.

(** [form[action*=<q>/errors/validateCaptcha<q>]], with [<q>] the double
    quote. *)
Definition captcha_selector : string :=
  let q := String (ascii_of_nat 34) EmptyString in
  "form[action*=" +:+ q +:+ "/errors/validateCaptcha" +:+ q +:+ "]".

(** The body of the coroutine function, lines 222-278. *)
Definition _safe_get_wrapped (target : string) : M string :=
  flag ← get_flag;
  if flag : bool then raise (GracefulExit "Crawler is shutting down")
  else
    try_except
      (sleep (Uniform (1000 * (delay_range self).1) (1000 * (delay_range self).2)) ;;
       response ← page_goto target;
       match response with
       | None => raise (Exception "No response received")
       | Some response =>
           if (status response =? 503)%Z || (status response =? 429)%Z then
             logger Warning ("Rate limited on " +:+ target +:+ ". Waiting longer...") ;;
             sleep (Uniform 20000 30000) ;;
             raise (Exception "Rate limited")
           else
             n ← await_page (λ p, locator_count p captcha_selector);
             if (0 <? n)%nat then
               logger Warning "CAPTCHA detected. Waiting and retrying..." ;;
               sleep (Uniform 30000 45000) ;;
               raise (Exception "CAPTCHA encountered")
             else
               t ← await_page page_title;
               if Str.contains "robot check" (Str.lower t) then
                 logger Warning "Robot check detected. Waiting and retrying..." ;;
                 sleep (Uniform 30000 45000) ;;
                 raise (Exception "Robot check encountered")
               else
                 scroll_randomly ;;
                 await_page page_content
       end)
      (λ e,
         match e with
         | PlaywrightTimeoutError _ =>
             logger Warning ("Timeout on " +:+ target +:+ ". Retrying...") ;;
             raise e
         | _ =>
             logger Error ("Error fetching " +:+ target +:+ ": " +:+ str e) ;;
             raise e
         end).

(** ** The decorator [@retry(tries=3, delay=2, backoff=2)] (line 219)

    [retry] is the synchronous decorator of the package of that name.
    Its loop is

      while _tries:
          try: return f()
          except exceptions as e:
              _tries -= 1
              if not _tries: raise
              logger.warning('%s, retrying in %s seconds...', e, _delay)
              time.sleep(_delay)
              _delay *= backoff

    with [exceptions = Exception], no jitter and no maximal delay.  [f]
    is the decorated function applied to its arguments: the loop calls
    it, and neither awaits nor inspects what it returns. *)
Fixpoint retry_internal {A} (f : M A) (tries : nat) (delay backoff : Z)
    : M (option A) :=
  match tries with
  | O => mret None
  | S tries' => λ w,
      match f w with
      | (Ok a, w') => (Ok (Some a), w')
      | (Raise e, w') =>
          match tries' with
          | O => (Raise e, w')
          | S _ =>
              (logger Warning
                 (str e +:+ ", retrying in " +:+ pretty delay +:+ " seconds...") ;;
               sleep (Fixed (1000 * delay)) ;;
               retry_internal f tries' (delay * backoff) backoff) w'
          end
      end
  end.

(** Calling a coroutine function runs none of its body: the call returns
    the coroutine object, here the suspended computation. *)
Definition call_coroutine_function {A} (body : M A) : M (M A) := mret body.

(** [await self._safe_get(url, page)]: the decorated function is called,
    and what it returns is awaited. *)
Definition _safe_get (target : string) : M string :=
  awaitable ← retry_internal (call_coroutine_function (_safe_get_wrapped target)) 3 2 2;
  match awaitable with
  | Some coroutine => coroutine
  | None => raise (Exception "object NoneType can't be used in 'await' expression")
  end.

(** ** [extract_product_data] (lines 280-357) *)

Definition price_selectors : list string :=
  [ "span.a-price-whole";
    "span.a-offscreen";
    "#priceblock_ourprice";
    "#priceblock_dealprice";
    ".a-price .a-offscreen";
    "#price_inside_buybox";
    "#corePrice_feature_div .a-price .a-offscreen" ].

(** The time-out set by [page.set_default_timeout(60000)] (line 210). *)
Definition default_timeout : Z := 60000.

(** Lines 301-309.  [Ok None] from the body: the handle was falsy, and
    the loop goes on to the next selector as it does after an exception. *)
Fixpoint probe_price (selectors : list string) : M (option string) :=
  match selectors with
  | [] => mret None
  | selector :: rest =>
      found ← try_except
                (price_element ← await_page (λ p, wait_for_selector p selector 5000);
                 match price_element with
                 | Some price_element =>
                     text ← await_value (inner_text price_element);
                     mret (Some text)
                 | None => mret None
                 end)
                (λ _, mret None);
      match found with
      | Some text => mret (Some text)
      | None => probe_price rest
      end
  end.

(** [[await f(x) for x in l]] *)
Fixpoint gather {A B} (f : A → M B) (l : list A) : M (list B) :=
  match l with
  | [] => mret []
  | x :: l' => y ← f x; ys ← gather f l'; mret (y :: ys)
  end.

(** Lines 331-337 *)
Fixpoint read_details (rows : list Element) (details : gmap string string)
    : M (gmap string string) :=
  match rows with
  | [] => mret details
  | row :: rest =>
      details ← try_except
                  (label ← await_value (locator_inner_text row "th");
                   value ← await_value (locator_inner_text row "td");
                   mret (<[Str.strip label := Str.strip value]> details))
                  (λ _, mret details);
      read_details rest details
  end.

(** [None] is the empty dict [{}] of line 357. *)
Definition extract_product_data : M (option Product) :=
  flag ← get_flag;
  if flag : bool then raise (GracefulExit "Crawler is shutting down")
  else
    try_except
      (await_page (λ p, wait_for_selector p "span#productTitle" 15000) ;;
       title ← await_page (λ p, locator_text p "span#productTitle" default_timeout);
       price ← probe_price price_selectors;
       rating ← try_except
                  (await_page (λ p, locator_attribute p "span#acrPopover" "title" 5000))
                  (λ _, mret None);
       reviews_count ← try_except
                         (text ← await_page (λ p, locator_text p "span#acrCustomerReviewText" 5000);
                          mret (Some text))
                         (λ _, mret None);
       features_text ← try_except
                         (features ← await_page (λ p, locator_all p "div#feature-bullets li");
                          gather (λ f, await_value (inner_text f)) features)
                         (λ _, mret []);
       details ← try_except
                   (details_table ← await_page
                      (λ p, locator_all p "table#productDetails_techSpec_section_1 tr");
                    read_details details_table ∅)
                   (λ _, mret ∅);
       page_url ← (λ w, (Ok (page_url (page w)), w)) : M string;
       timestamp ← datetime_now_isoformat;
       logger Info ("Successfully extracted data for product: "
                    +:+ Str.take 50 title +:+ "...") ;;
       mret (Some (mkProduct title price rating reviews_count features_text
                     details page_url timestamp)))
      (λ e,
         logger Error ("Error extracting product data: " +:+ str e) ;;
         mret None).

(** ** [_save_data] (lines 429-437) *)

(** [pd.DataFrame(data).to_csv(output_path, index=False)]: the file at
    that path is created or replaced, and holds the rows of [data]. *)
Definition write_csv (output_path : string) (data : list Product) : M () := λ w,
  match to_csv env output_path (now w) with
  | Ok _ =>
      (Ok (), mkWorld (is_shutting_down w) (now w) (draws w) (page w)
                (products_data w) (<[output_path := data]> (files w))
                (ToCsv output_path data :: trace w))
  | Raise e =>
      (Raise e, mkWorld (is_shutting_down w) (now w) (draws w) (page w)
                  (products_data w) (files w)
                  (ToCsv output_path data :: trace w))
  end.

(** [self.output_dir / filename] (line 433), with [self.output_dir] the
    [Path(output_dir)] of line 41. *)
Definition output_path (filename : string) : string :=
  Path.str (Path.joinpath (Path.parse (output_dir self)) filename).

Definition _save_data (data : list Product) (filename : string) : M () :=
  try_except
    (let output_path := output_path filename in
     write_csv output_path data ;;
     logger Info ("Saved " +:+ pretty (length data) +:+ " records to " +:+ output_path))
    (λ e, logger Error ("Error saving data to " +:+ filename +:+ ": " +:+ str e)).

(** ** [crawl_category] (lines 359-427) *)

(** Lines 177-217, the identity of the session left to the collaborator.
    [new_page] answers for the whole of it, the launch of the browser on
    the first call included; what it raises is logged as the handler of
    lines 215-217 logs it. *)
Definition _create_page : M () := λ w,
  match new_page env (now w) with
  | Ok p =>
      (Ok (), (tick (mkWorld (is_shutting_down w) (now w) (draws w) p
                       (products_data w) (files w) (NewPage :: trace w))).2)
  | Raise e =>
      (logger Error ("Error creating page: " +:+ str e) ;; raise e) (tick w).2
  end.

Definition page_close : M () := λ w,
  (emit ClosePage ;; await_value (close_page env (now w))) w.

Definition get_products_data : M (list Product) := λ w, (Ok (products_data w), w).

Definition set_products_data (l : list Product) : M () := λ w,
  (Ok (), mkWorld (is_shutting_down w) (now w) (draws w) (page w) l
            (files w) (trace w)).

(** [products_data.append(product_data)] *)
Definition products_data_append (product_data : Product) : M () :=
  l ← get_products_data;
  emit (Append product_data) ;;
  set_products_data (l ++ [product_data]).

(** Lines 404-406 *)
Definition save_incrementally : M () :=
  products_data ← get_products_data;
  if (length products_data mod 5 =? 0)%nat then
    stamp ← datetime_now_strftime;
    _save_data products_data ("products_" +:+ stamp +:+ ".csv")
  else mret ().

(** Lines 408-410 *)
Definition random_longer_delay : M () :=
  r ← random_random;
  if (800 <? r)%nat then sleep (Uniform 15000 25000) else mret ().

(** The body of the inner [try], lines 398-410. *)
Definition visit_product (full_url : string) : M () :=
  _safe_get full_url ;;
  product_data ← extract_product_data;
  match product_data with
  | Some product_data =>
      products_data_append product_data ;;
      logger Info ("Successfully scraped product: "
                   +:+ Str.take 50 (title product_data) +:+ "...")
  | None => mret ()
  end ;;
  save_incrementally ;;
  random_longer_delay.

(** Line 395 *)
Definition full_url_of (product_url : string) : string :=
  if negb (Str.startswith product_url "http")
  then base_url self +:+ product_url
  else product_url.

(** Lines 388-414 *)
Fixpoint crawl_products (product_urls : list (option string)) : M () :=
  match product_urls with
  | [] => mret ()
  | product_url :: rest =>
      flag ← get_flag;
      if flag : bool then mret ()
      else
        match product_url with
        | None | Some "" => crawl_products rest
        | Some product_url =>
            let full_url := full_url_of product_url in
            try_except
              (visit_product full_url)
              (λ e, logger Error ("Error processing product " +:+ full_url
                                  +:+ ": " +:+ str e)) ;;
            crawl_products rest
        end
  end.

(** The body of the [try] of lines 375-416. *)
Definition visit_category_page (category_url : string) (page_num max_pages : Z)
    : M () :=
  let target := category_url +:+ "&page=" +:+ pretty page_num in
  _safe_get target ;;
  await_page (λ p, wait_for_selector p "div.s-main-slot" 15000) ;;
  product_links ← await_page (λ p, locator_all p "a.a-link-normal.s-no-outline");
  product_urls ← gather (λ link, await_value (get_attribute link "href")) product_links;
  logger Info ("Found " +:+ pretty (length product_urls) +:+ " products on page "
               +:+ pretty page_num) ;;
  crawl_products product_urls ;;
  logger Info ("Completed page " +:+ pretty page_num +:+ " of " +:+ pretty max_pages).

(** Lines 368-420 *)
Fixpoint crawl_pages (category_url : string) (page_nums : list Z) (max_pages : Z)
    : M () :=
  match page_nums with
  | [] => mret ()
  | page_num :: rest =>
      flag ← get_flag;
      if flag : bool then mret ()
      else
        logger Info ("Processing category page " +:+ pretty page_num +:+ " of "
                     +:+ pretty max_pages) ;;
        try_except
          (visit_category_page category_url page_num max_pages)
          (λ e, logger Error ("Error processing category page "
                              +:+ pretty page_num +:+ ": " +:+ str e)) ;;
        crawl_pages category_url rest max_pages
  end.

(** [range(1, max_pages + 1)] *)
Definition page_range (max_pages : Z) : list Z :=
  Z.of_nat <$> seq 1 (Z.to_nat max_pages).

Definition crawl_category (category_url : string) (max_pages : Z)
    : M (list Product) :=
  flag ← get_flag;
  if flag : bool then raise (GracefulExit "Crawler is shutting down")
  else
    _create_page ;;
    set_products_data [] ;;
    try_finally
      (try_except
         (crawl_pages category_url (page_range max_pages) max_pages)
         (λ e, logger Error ("Error in category crawl: " +:+ str e)))
      page_close ;;
    get_products_data.

(** [close] (lines 439-448).  One closing stands for that of the page and
    that of the browser, and is made whether or not a page was created. *)
Definition close : M () :=
  try_except
    (page_close ;;
     logger Info "Crawler resources cleaned up successfully")
    (λ e, logger Error ("Error closing crawler resources: " +:+ str e)).

End AmazonCrawler.

(** ** [main] (lines 455-492)

    [main] below is the [try] statement of lines 478-492, to which a run
    comes once the crawler is constructed and the handlers are registered;
    [asyncio_run_main] further down is the run from the first line. *)

(** The crawler of lines 465-468. *)
Definition main_crawler : Crawler :=
  mkCrawler "https://www.amazon.com" "data" (8, 15) 3.

Definition main_category_url : string := "https://www.amazon.com/s?k=electronics".

Definition main (env : Env) : M () :=
  try_finally
    (try_except
       (products ← crawl_category env main_crawler main_category_url 2;
        match products with
        | [] => mret ()
        | _ :: _ =>
            stamp ← datetime_now_strftime env;
            _save_data env main_crawler products
              ("electronics_products_" +:+ stamp +:+ ".csv")
        end)
       (λ e,
          match e with
          | GracefulExit _ => logger Info "Crawler shutting down gracefully..."
          | _ => logger Error ("Error in main execution: " +:+ str e)
          end))
    (close env).

(** ** [_get_random_proxy] (lines 156-175) and [initiate_shutdown] (lines 450-453) *)

(** [a, b = parts]: the [ValueError] of an unpacking into two names, with
    the messages of CPython. *)
Definition unpack2 (parts : list string) : result (string * string) :=
  match parts with
  | [a; b] => Ok (a, b)
  | [] | [_] =>
      Raise (Exception ("not enough values to unpack (expected 2, got "
                        +:+ pretty (length parts) +:+ ")"))
  | _ => Raise (Exception "too many values to unpack (expected 2)")
  end.

(** The dict of lines 168-172. *)
Record ProxyConfig : Type := mkProxyConfig {
  server : string;
  username : string;
  password : string
}.

Definition lift {A} (r : result A) : M A := λ w, (r, w).

(** [proxy_urls] is [self.proxy_urls]; [random.choice] takes the element
    at the drawn number modulo the length. *)
Definition _get_random_proxy (env : Env) (proxy_urls : list string)
    : M (option ProxyConfig) :=
  match proxy_urls with
  | [] => mret None
  | first :: _ =>
      r ← draw env;
      let proxy_url := default first (proxy_urls !! (r mod length proxy_urls)%nat) in
      try_except
        (halves ← lift (unpack2 (split "@" proxy_url));
         credentials ← lift (unpack2 (split ":" halves.1));
         address ← lift (unpack2 (split ":" halves.2));
         mret (Some (mkProxyConfig ("http://" +:+ address.1 +:+ ":" +:+ address.2)
                       credentials.1 credentials.2)))
        (λ e, logger Error ("Error parsing proxy URL: " +:+ str e) ;; mret None)
  end.

Definition initiate_shutdown : M () :=
  logger Info "Initiating graceful shutdown..." ;;
  ((λ w, (Ok (), mkWorld true (now w) (draws w) (page w) (products_data w)
                   (files w) (trace w))) : M ()).

(** ** [asyncio.run(main())] (line 495)

    [main] from its first line.  The crawler is constructed (line 465):
    [__init__] (lines 40-61) creates the output directory, the user-agent
    source and the log file, and logs one line.  Then the handlers are
    registered (lines 470-476).  Both come before the [try], so that an
    exception of theirs leaves [main] with no handler and no [close]. *)
Definition asyncio_run_main (env : Env) : M () :=
  lift (construct env) ;;
  logger Info ("Initializing crawler. Log file: "
               +:+ output_path main_crawler "crawler.log") ;;
  lift (register env) ;;
  main env.

(** * Vocabulary of the properties *)

(** ** Reading the trace *)

(** The writes to disk, newest first. *)
Definition flushes (tr : list Event) : list (string * list Product) :=
  omap (λ ev, match ev with ToCsv path data => Some (path, data) | _ => None end) tr.

(** The navigations started, newest first. *)
Definition navigations (tr : list Event) : list string :=
  omap (λ ev, match ev with Goto target => Some target | _ => None end) tr.

(** The scroll actions made. *)
Definition scrolls (tr : list Event) : nat :=
  length (omap (λ ev, match ev with Evaluate script => Some script | _ => None end) tr).

(** How many times the record [r] is held by the files on disk. *)
Definition copies (r : Product) (stored : gmap string (list Product)) : nat :=
  map_fold (λ _ data n, (length (filter (r =.) data) + n)%nat) 0%nat stored.

(** ** What a computation leaves alone *)

(** [keeps R m]: whatever [m] returns or raises, the world it leaves is
    related by [R] to the one it started in. *)
Definition keeps (R : relation World) {A} (m : M A) : Prop := ∀ w, R w (m w).2.

(** [quiet]: nothing was appended to the buffer and nothing written to disk.
    The fetch and the extraction are quiet. *)
Record quiet (w w' : World) : Prop := mkQuiet {
  quiet_products_data : products_data w' = products_data w;
  quiet_files : files w' = files w;
  quiet_flushes : flushes (trace w') = flushes (trace w)
}.

(** [calm]: quiet, and still on the same page with no navigation started.
    The extraction is calm. *)
Record calm (w w' : World) : Prop := mkCalm {
  calm_quiet : quiet w w';
  calm_page : page w' = page w;
  calm_navigations : navigations (trace w') = navigations (trace w)
}.

(** [initiate_shutdown] is the one assignment to the flag after
    [__init__]: once set, the flag stays set. *)
Definition flag_stays (w w' : World) : Prop :=
  is_shutting_down w = true → is_shutting_down w' = true.

(** [heard]: the clock only advanced, the flag was not cleared, and every
    signal delivered at a suspension point passed meanwhile has set it
    (lines 470-476). *)
Record heard (env : Env) (w w' : World) : Prop := mkHeard {
  heard_clock : (now w ≤ now w')%nat;
  heard_flag : is_shutting_down w = true → is_shutting_down w' = true;
  heard_signal :
    ∀ instant, (now w < instant ≤ now w')%nat → signal env instant = true →
               is_shutting_down w' = true
}.

(** [grows]: the buffer was only appended to, and every write since held the
    buffer as it stood, a prefix of the buffer now. *)
Definition grows (w w' : World) : Prop :=
  products_data w `prefix_of` products_data w' ∧
  ∃ new, flushes (trace w') = new ++ flushes (trace w) ∧
         Forall (λ flush, flush.2 `prefix_of` products_data w') new.

Definition is_silent (ev : Event) : bool :=
  match ev with
  | ToCsv _ _ | Goto _ => false
  | _ => true
  end.

(** ** The fetch *)








Definition pre_request_delay (self : Crawler) : Duration :=
  Uniform (1000 * (delay_range self).1) (1000 * (delay_range self).2).


(** The line the fetch logs before it raises [e] again (lines 273-278). *)
Definition fetch_failure_log (target : string) (e : exn) : Event :=
  match e with
  | PlaywrightTimeoutError _ => Log Warning ("Timeout on " +:+ target +:+ ". Retrying...")
  | _ => Log Error ("Error fetching " +:+ target +:+ ": " +:+ str e)
  end.

Definition shutting_down : exn := GracefulExit "Crawler is shutting down".




(** The events of the scroll sequence (lines 230-240). *)
Definition is_scroll_event (ev : Event) : bool :=
  match ev with
  | Evaluate _ | MouseMove | Sleep (Uniform 500 2000) => true
  | _ => false
  end.

(** [scrolling]: the trace was only added to, by events of the scroll
    sequence. *)
Definition scrolling (w w' : World) : Prop :=
  ∃ new, trace w' = new ++ trace w ∧ Forall (λ ev, is_scroll_event ev = true) new.

(** ** The extraction, field by field

    What each field of the record is, as a function of the answers of the
    page to the queries of that field alone. *)

(** Lines 304-306 for one selector: the text of the handle, when the wait
    returns a handle and the text can be read. *)
Definition price_text (p : Page) (selector : string) : option string :=
  match wait_for_selector p selector 5000 with
  | Ok (Some price_element) =>
      match inner_text price_element with
      | Ok text => Some text
      | Raise _ => None
      end
  | _ => None
  end.

Definition price_of (p : Page) : option string :=
  head (omap (price_text p) price_selectors).

(** The price as the specification words it: the first candidate that
    exists and yields non-empty text. *)
Definition nonempty_price_text (p : Page) (selector : string) : option string :=
  match price_text p selector with
  | Some text => if String.eqb text "" then None else Some text
  | None => None
  end.

Definition claimed_price (p : Page) : option string :=
  head (omap (nonempty_price_text p) price_selectors).

Definition rating_of (p : Page) : option string :=
  match locator_attribute p "span#acrPopover" "title" 5000 with
  | Ok value => value
  | Raise _ => None
  end.

Definition reviews_count_of (p : Page) : option string :=
  match locator_text p "span#acrCustomerReviewText" 5000 with
  | Ok text => Some text
  | Raise _ => None
  end.

Definition text_of (el : Element) : option string :=
  match inner_text el with
  | Ok text => Some text
  | Raise _ => None
  end.

Definition features_of (p : Page) : list string :=
  match locator_all p "div#feature-bullets li" with
  | Ok features => default [] (mapM text_of features)
  | Raise _ => []
  end.

Definition add_detail (details : gmap string string) (row : Element)
    : gmap string string :=
  match locator_inner_text row "th", locator_inner_text row "td" with
  | Ok label, Ok value => <[Str.strip label := Str.strip value]> details
  | _, _ => details
  end.

Definition details_of (p : Page) : gmap string string :=
  match locator_all p "table#productDetails_techSpec_section_1 tr" with
  | Ok rows => foldl add_detail ∅ rows
  | Raise _ => ∅
  end.

(** ** The persistence *)

(** The path of an incremental write made in [w] (line 406). *)
Definition batch_path (env : Env) (self : Crawler) (w : World) : string :=
  output_path self ("products_" +:+ strftime env (now w) +:+ ".csv").

(** The path of the last write of [main], made in [w] (line 485). *)
Definition final_path (env : Env) (w : World) : string :=
  output_path main_crawler ("electronics_products_" +:+ strftime env (now w) +:+ ".csv").

(** The handler of lines 412-414. *)
Definition processing_error (full_url : string) (e : exn) : M () :=
  logger Error ("Error processing product " +:+ full_url +:+ ": " +:+ str e).

(** The buffer after the [events] of a run (newest first) that began
    with the buffer [start], provided every write among them holds the
    whole buffer as it stands when it is made. *)
Fixpoint replay (events : list Event) (start : list Product) : option (list Product) :=
  match events with
  | [] => Some start
  | ev :: earlier =>
      buffer ← replay earlier start;
      match ev with
      | Append product_data => Some (buffer ++ [product_data])
      | ToCsv _ data => if decide (data = buffer) then Some buffer else None
      | _ => Some buffer
      end
  end.

(** [replays]: the trace was only added to, and what was added takes the
    buffer as it was to the buffer as it is, every write whole. *)
Definition replays (w w' : World) : Prop :=
  ∃ new, trace w' = new ++ trace w
         ∧ replay new (products_data w) = Some (products_data w').

Definition returned {A} (r : result A) (otherwise : A) : A :=
  match r with
  | Ok a => a
  | Raise _ => otherwise
  end.

(** ** The links of a results page *)

(** The hrefs the loop of lines 388-414 visits: those that are neither
    [None] nor empty (lines 392-393). *)
Definition visited_links (product_urls : list (option string)) : list string :=
  omap (λ product_url,
          match product_url with
          | Some "" | None => None
          | Some href => Some href
          end) product_urls.

(** [same_navigations]: no navigation was started. *)
Definition same_navigations (w w' : World) : Prop :=
  navigations (trace w') = navigations (trace w).

(** [c not in s] *)
Fixpoint lacks (c : ascii) (s : string) : bool :=
  match s with
  | EmptyString => true
  | String c' s' => negb (Ascii.eqb c' c) && lacks c s'
  end.

(** [f"{username}:{password}@{host}:{port}"] *)
Definition proxy_url_of (username password host port : string) : string :=
  username +:+ ":" +:+ password +:+ "@" +:+ host +:+ ":" +:+ port.

(** * Concrete sites *)

Module Fixture.

Definition timed_out : exn := PlaywrightTimeoutError "Timeout 5000ms exceeded.".


Definition text_element (text : string) : Element :=
  mkElement (Ok text) (λ _, Ok None) (λ _, Raise timed_out).

Definition link (href : string) : Element :=
  mkElement (Ok "")
    (λ name, Ok (if String.eqb name "href" then Some href else None))
    (λ _, Raise timed_out).

Definition blank : Page :=
  mkPage "about:blank" (Ok "") (Ok "<html></html>") (λ _, Ok 0%nat)
    (λ _ _, Raise timed_out) (λ _ _, Raise timed_out) (λ _ _ _, Raise timed_out)
    (λ _, Ok []) (λ _, Ok ()) (Ok ()).

(** A results page with one link per [href]. *)
Definition listing (hrefs : list string) : Page :=
  mkPage "https://www.amazon.com/s?k=electronics" (Ok "Amazon.com : electronics")
    (Ok "<html>listing</html>") (λ _, Ok 0%nat)
    (λ selector _, if String.eqb selector "div.s-main-slot"
                   then Ok (Some (text_element "")) else Raise timed_out)
    (λ _ _, Raise timed_out) (λ _ _ _, Raise timed_out)
    (λ selector, if String.eqb selector "a.a-link-normal.s-no-outline"
                 then Ok (link <$> hrefs) else Ok [])
    (λ _, Ok ()) (Ok ()).

(** A product page: its title if it has one, the text under each price
    selector it has, and what it answers to scrolling. *)
Definition product_page (address : string) (heading : option string)
    (prices : list (string * string)) (scrolling : result ()) : Page :=
  mkPage address (Ok "Amazon.com: Thing") (Ok "<html>thing</html>") (λ _, Ok 0%nat)
    (λ selector _,
       if String.eqb selector "span#productTitle" then
         match heading with
         | Some text => Ok (Some (text_element text))
         | None => Raise timed_out
         end
       else
         match list_find (λ entry, entry.1 = selector) prices with
         | Some (_, (_, text)) => Ok (Some (text_element text))
         | None => Raise timed_out
         end)
    (λ selector _,
       if String.eqb selector "span#productTitle" then
         match heading with
         | Some text => Ok text
         | None => Raise timed_out
         end
       else Raise timed_out)
    (λ _ _ _, Ok (Some "4.5 out of 5 stars"))
    (λ selector, if String.eqb selector "div#feature-bullets li"
                 then Ok [text_element "Light"; text_element "Sturdy"] else Ok [])
    (λ _, scrolling) (Ok ()).

Definition thing_page (address : string) : Page :=
  product_page address (Some "Thing") [("span.a-offscreen", "$9.99")] (Ok ()).

Definition untitled_page (address : string) : Page :=
  product_page address None [("span.a-offscreen", "$9.99")] (Ok ()).

Definition blank_price_page (address : string) : Page :=
  product_page address (Some "Thing")
    [("span.a-price-whole", ""); ("span.a-offscreen", "$9.99")] (Ok ()).


(** A site that answers a navigation the same way whenever asked; no signal
    arrives, the disk takes every write, the instant is the time stamp. *)
Definition site (serve : string → result (option Response) * Page) : Env :=
  mkEnv (λ _, false) (λ target _, serve target) (λ _, Ok blank) (λ _, Ok ())
    (λ _, 0%nat) pretty pretty (λ _ _, Ok ()) (Ok ()) (Ok ()).

Definition ok : result (option Response) := Ok (Some (mkResponse 200)).

Definition hrefs : list string := ["/dp/1"; "/dp/2"; "/dp/3"; "/dp/4"; "/dp/5"].

Definition shop_of (product : string → Page) : Env :=
  site (λ target, if Str.contains "/dp/" target
                  then (ok, product target) else (ok, listing hrefs)).

Definition shop : Env := shop_of thing_page.

Definition untitled_shop : Env := shop_of untitled_page.


Definition unreachable : Env := site (λ _, (Raise timed_out, blank)).

(** [shop], with a signal delivered while the first suspension lasts. *)
Definition interrupted_shop : Env :=
  mkEnv (λ instant, Nat.eqb instant 1) (goto shop) (new_page shop) (close_page shop)
    (entropy shop) (strftime shop) (isoformat shop) (to_csv shop)
    (construct shop) (register shop).

Definition start : World := mkWorld false 0 0 blank [] ∅ [].

Definition stopping : World := mkWorld true 0 0 blank [] ∅ [].

Definition thing_url : string := "https://www.amazon.com/dp/1".

Definition thing : Product :=
  mkProduct "Thing" (Some "$9.99") (Some "4.5 out of 5 stars") None
    ["Light"; "Sturdy"] ∅ thing_url "0".

Definition four_collected : World :=
  mkWorld false 0 0 blank [thing; thing; thing; thing] ∅ [].

Definition showing (p : Page) : World := mkWorld false 0 0 p [] ∅ [].

(** A row of the table of technical details. *)
Definition detail_row (label value : result string) : Element :=
  mkElement (Ok "") (λ _, Ok None)
    (λ selector, if String.eqb selector "th" then label else value).

Definition detail_rows : list Element :=
  [ detail_row (Ok "Brand ") (Ok " Acme");
    detail_row (Raise timed_out) (Ok "?");
    detail_row (Ok "Colour") (Ok "Red") ].

(** [thing_page] with a table of technical details whose second row
    cannot be read. *)
Definition specified_page (address : string) : Page :=
  let p := thing_page address in
  mkPage address (page_title p) (page_content p) (locator_count p)
    (wait_for_selector p) (locator_text p) (locator_attribute p)
    (λ selector,
       if String.eqb selector "table#productDetails_techSpec_section_1 tr"
       then Ok detail_rows else locator_all p selector)
    (evaluate p) (mouse_move p).

(** [blank], with [forms] CAPTCHA forms and the title [heading]. *)
Definition interstitial (forms : nat) (heading : string) : Page :=
  mkPage "https://www.amazon.com/errors" (Ok heading) (Ok "<html></html>")
    (λ _, Ok forms) (λ _ _, Raise timed_out) (λ _ _, Raise timed_out)
    (λ _ _ _, Raise timed_out) (λ _, Ok []) (λ _, Ok ()) (Ok ()).

Definition throttled : Env := site (λ _, (Ok (Some (mkResponse 503)), blank)).

Definition challenged : Env := site (λ _, (ok, interstitial 1 "Amazon.com")).

Definition suspicious : Env := site (λ _, (ok, interstitial 0 "Robot Check")).

(** Every results page comes without its product grid. *)
Definition gridless : Env := site (λ _, (ok, blank)).

Definition disk_full : exn := Exception "No space left on device".

(** [shop], with a disk that takes no write. *)
Definition full_disk : Env :=
  mkEnv (signal shop) (goto shop) (new_page shop) (close_page shop)
    (entropy shop) (strftime shop) (isoformat shop) (λ _ _, Raise disk_full)
    (construct shop) (register shop).


Definition proxy_pool : list string :=
  [proxy_url_of "customer" "secret" "proxy.example" "7777"].

Definition listing_url : string := "https://www.amazon.com/s?k=electronics&page=1".

End Fixture.

(** * Lemmas *)

(** ** Running a bind *)

Lemma bind_run {A B} (m : M A) (f : A → M B) w a :
  (m w).1 = Ok a → (m ≫= f) w = f a (m w).2.
Proof. unfold mbind, M_bind. destruct (m w) as [r w']; simpl. by intros ->. Qed.

Lemma bind_ok {A B} (m : M A) (f : A → M B) w a w' :
  m w = (Ok a, w') → (m ≫= f) w = f a w'.
Proof. unfold mbind, M_bind. by intros ->. Qed.

Lemma bind_raise {A B} (m : M A) (f : A → M B) w e w' :
  m w = (Raise e, w') → (m ≫= f) w = (Raise e, w').
Proof. unfold mbind, M_bind. by intros ->. Qed.

(** ** Preservation along the structure of a computation *)

Section Keeps.

Context (R : relation World) `{!PreOrder R}.

Lemma keeps_ret {A} (a : A) : keeps R (mret a).
Proof. intros w. reflexivity. Qed.

Lemma keeps_raise {A} (e : exn) : keeps R (@raise A e).
Proof. intros w. reflexivity. Qed.

Lemma keeps_bind {A B} (m : M A) (f : A → M B) :
  keeps R m → (∀ a, keeps R (f a)) → keeps R (m ≫= f).
Proof.
  intros Hm Hf w. unfold mbind, M_bind.
  specialize (Hm w). destruct (m w) as [[a|e] w1]; simpl in *.
  - etransitivity; [exact Hm | apply Hf].
  - exact Hm.
Qed.

Lemma keeps_try_except {A} (body : M A) (handler : exn → M A) :
  keeps R body → (∀ e, keeps R (handler e)) → keeps R (try_except body handler).
Proof.
  intros Hm Hh w. unfold try_except.
  specialize (Hm w). destruct (body w) as [[a|e] w1]; simpl in *.
  - exact Hm.
  - etransitivity; [exact Hm | apply Hh].
Qed.

Lemma keeps_try_finally {A} (body : M A) (final : M ()) :
  keeps R body → keeps R final → keeps R (try_finally body final).
Proof.
  intros Hm Hf w. unfold try_finally.
  specialize (Hm w). destruct (body w) as [r w1]; simpl in *.
  specialize (Hf w1). destruct (final w1) as [[[]|e] w2]; simpl in *;
    etransitivity; eauto.
Qed.

Lemma keeps_get_flag : keeps R get_flag.
Proof. intros w. reflexivity. Qed.

Lemma keeps_gather {A B} (f : A → M B) (l : list A) :
  (∀ x, keeps R (f x)) → keeps R (gather f l).
Proof.
  intros Hf. induction l as [|x l IH]; simpl.
  - apply keeps_ret.
  - apply keeps_bind; [apply Hf|]. intros y.
    apply keeps_bind; [apply IH|]. intros ys. apply keeps_ret.
Qed.

End Keeps.

(** Hands a computation to [solve_prim]; failing that, splits it along its
    binds, handlers and branches. *)
Ltac keeps_with solve_prim :=
  repeat first
    [ solve_prim
    | apply keeps_ret; [apply _]
    | apply keeps_raise; [apply _]
    | apply keeps_get_flag; [apply _]
    | apply keeps_bind; [apply _ | | intros ?]
    | apply keeps_try_except; [apply _ | | intros ?]
    | apply keeps_try_finally; [apply _ | |]
    | apply keeps_gather; [apply _ | intros ?]
    | match goal with
      | |- keeps _ (if ?b then _ else _) => destruct b
      | |- keeps _ (match ?x with _ => _ end) => destruct x
      end ].

#[global] Instance quiet_preorder : PreOrder quiet.
Proof.
  split.
  - intros w. by split.
  - intros w1 w2 w3 [] []. split; congruence.
Qed.

#[global] Instance calm_preorder : PreOrder calm.
Proof.
  split.
  - intros w. by split.
  - intros w1 w2 w3 [] []. split; [by etransitivity | congruence..].
Qed.

#[global] Instance flag_stays_preorder : PreOrder flag_stays.
Proof.
  split.
  - intros w H. exact H.
  - intros w1 w2 w3 H12 H23 H. by apply H23, H12.
Qed.

#[global] Instance grows_preorder : PreOrder grows.
Proof.
  split.
  - intros w. split; [done|]. by exists [].
  - intros w1 w2 w3 [Hp12 (new12 & Hf12 & Hall12)] [Hp23 (new23 & Hf23 & Hall23)].
    split; [by etransitivity|].
    exists (new23 ++ new12). split.
    + by rewrite Hf23, Hf12, (assoc_L (++)).
    + apply Forall_app. split; [done|].
      eapply Forall_impl; [exact Hall12|].
      intros flush Hflush. cbn in *. etransitivity; [exact Hflush | exact Hp23].
Qed.

Lemma grows_of_quiet w w' : quiet w w' → grows w w'.
Proof.
  intros [Hp _ Hf]. split; [by rewrite Hp|].
  exists []. by rewrite Hf.
Qed.

Lemma keeps_grows_of_quiet {A} (m : M A) : keeps quiet m → keeps grows m.
Proof. intros H w. apply grows_of_quiet, H. Qed.

Lemma keeps_quiet_of_calm {A} (m : M A) : keeps calm m → keeps quiet m.
Proof. intros H w. apply H. Qed.

(** ** The primitive operations *)

Section Primitives.

Context (env : Env).

Lemma calm_tick : keeps calm (tick env).
Proof. intros w. by repeat split. Qed.

Lemma calm_emit ev : is_silent ev = true → keeps calm (emit ev).
Proof. intros H w. by destruct ev; repeat split. Qed.

Lemma calm_logger lvl msg : keeps calm (logger lvl msg).
Proof. by apply calm_emit. Qed.

Lemma calm_await_value {A} (r : result A) : keeps calm (await_value env r).
Proof. intros w. by repeat split. Qed.

Lemma calm_await_page {A} (query : Page → result A) :
  keeps calm (await_page env query).
Proof. intros w. by repeat split. Qed.

Lemma calm_sleep d : keeps calm (sleep env d).
Proof. intros w. by repeat split. Qed.

Lemma calm_draw : keeps calm (draw env).
Proof. intros w. by repeat split. Qed.

Lemma calm_isoformat : keeps calm (datetime_now_isoformat env).
Proof. intros w. by repeat split. Qed.

Lemma calm_strftime : keeps calm (datetime_now_strftime env).
Proof. intros w. by repeat split. Qed.

Lemma quiet_page_goto target : keeps quiet (page_goto env target).
Proof.
  intros w. unfold page_goto. by destruct (goto env target (now w)).
Qed.

Lemma quiet_page_close : keeps quiet (page_close env).
Proof. intros w. unfold page_close. by repeat split. Qed.

Lemma quiet_create_page : keeps quiet (_create_page env).
Proof.
  intros w. unfold _create_page. by destruct (new_page env (now w)); repeat split.
Qed.

End Primitives.

Ltac calm_prim :=
  first [ apply calm_tick | apply calm_logger | apply calm_await_value
        | apply calm_await_page | apply calm_sleep | apply calm_draw
        | apply calm_isoformat | apply calm_strftime
        | apply calm_emit; reflexivity ].

Ltac quiet_prim :=
  first [ apply quiet_page_goto | apply keeps_quiet_of_calm; calm_prim ].

(** ** The fetch *)

Section Fetch.

Context (env : Env) (self : Crawler).

Lemma quiet_scroll_steps n : keeps quiet (scroll_steps env n).
Proof.
  induction n as [|n IH]; simpl; unfold page_evaluate, page_mouse_move, random_random;
    keeps_with quiet_prim; exact IH.
Qed.

Lemma quiet_safe_get_wrapped target : keeps quiet (_safe_get_wrapped env self target).
Proof.
  unfold _safe_get_wrapped, scroll_randomly, randint.
  keeps_with ltac:(first [ quiet_prim | apply quiet_scroll_steps ]).
Qed.

(** The decorator never sees the body run: the decorated call is one
    attempt. *)
Lemma safe_get_unfold target w :
  _safe_get env self target w = _safe_get_wrapped env self target w.
Proof. reflexivity. Qed.

Lemma quiet_safe_get target : keeps quiet (_safe_get env self target).
Proof. intros w. rewrite safe_get_unfold. apply quiet_safe_get_wrapped. Qed.

(** What the loop of the decorator does with a function that raises when
    it is called: three calls, two seconds and four seconds apart. *)
Lemma retry_internal_exhausts (call : Event) (e : exn) w :
  ∃ w', retry_internal env (emit call ;; raise e : M ()) 3 2 2 w = (Raise e, w')
    ∧ trace w' = [ call;
                   Sleep (Fixed 4000);
                   Log Warning (str e +:+ ", retrying in 4 seconds...");
                   call;
                   Sleep (Fixed 2000);
                   Log Warning (str e +:+ ", retrying in 2 seconds...");
                   call ] ++ trace w.
Proof. eexists. split; [vm_compute; reflexivity | reflexivity]. Qed.

Lemma reraise_logs target e w :
  ∃ w', match e with
        | PlaywrightTimeoutError _ =>
            logger Warning ("Timeout on " +:+ target +:+ ". Retrying...") ;; raise e
        | _ => logger Error ("Error fetching " +:+ target +:+ ": " +:+ str e) ;; raise e
        end w = (@Raise string e, w')
        ∧ trace w' = fetch_failure_log target e :: trace w.
Proof. destruct e; eexists; split; reflexivity. Qed.


Lemma run_page_evaluate w :
  evaluate (page w) scroll_script = Ok () →
  ∃ w', page_evaluate env scroll_script w = (Ok (), w')
        ∧ page w' = page w
        ∧ scrolls (trace w') = S (scrolls (trace w)).
Proof.
  intros H. unfold page_evaluate, mbind, M_bind, emit, await_page, await_value.
  cbn [page]. rewrite H. eexists. by repeat split.
Qed.

Lemma run_pause_and_move w :
  mouse_move (page w) = Ok () →
  ∃ w', (sleep env (Uniform 500 2000) ;;
         r ← random_random env;
         if (500 <? r)%nat then page_mouse_move env else mret ()) w = (Ok (), w')
        ∧ page w' = page w
        ∧ scrolls (trace w') = scrolls (trace w).
Proof.
  intros H.
  unfold sleep, random_random, draw, page_mouse_move, mbind, M_bind, emit, tick,
    await_page, await_value, mret, M_ret.
  cbn [page draws fst snd].
  destruct (500 <? entropy env (draws w) mod 1000)%nat; cbn [page]; rewrite ?H;
    eexists; by repeat split.
Qed.

Lemma scroll_steps_completes n w :
  evaluate (page w) scroll_script = Ok () →
  mouse_move (page w) = Ok () →
  ∃ w', scroll_steps env n w = (Ok (), w')
        ∧ page w' = page w
        ∧ scrolls (trace w') = (n + scrolls (trace w))%nat.
Proof.
  revert w. induction n as [|n IH]; intros w Hscroll Hmove.
  - exists w. by repeat split.
  - cbn [scroll_steps].
    destruct (run_page_evaluate w Hscroll) as (w1 & H1 & Hp1 & Hs1).
    erewrite bind_ok by exact H1.
    rewrite <- Hp1 in Hscroll, Hmove.
    destruct (run_pause_and_move w1 Hmove) as (w2 & H2 & Hp2 & Hs2).
    rewrite <- Hp2 in Hscroll, Hmove.
    destruct (IH w2 Hscroll Hmove) as (w3 & H3 & Hp3 & Hs3).
    exists w3. split; [|split; [congruence | lia]].
    rewrite <- H3.
    transitivity
      (((sleep env (Uniform 500 2000) ;;
         r ← random_random env;
         if (500 <? r)%nat then page_mouse_move env else mret ())
        ≫= λ _, scroll_steps env n) w1).
    + unfold mbind, M_bind.
      destruct (sleep env (Uniform 500 2000) w1) as [[[]|e] wa]; [|done].
      by destruct (random_random env wa) as [[r|e] wb].
    + exact (bind_ok _ (λ _, scroll_steps env n) w1 () w2 H2).
Qed.

(** On a page that takes scrolling, the scroll sequence makes between two
    and five scroll actions and returns nothing. *)
Lemma scroll_randomly_completes w :
  evaluate (page w) scroll_script = Ok () →
  mouse_move (page w) = Ok () →
  ∃ w' n, scroll_randomly env w = (Ok (), w')
          ∧ (2 ≤ n ≤ 5)%nat
          ∧ scrolls (trace w') = (n + scrolls (trace w))%nat.
Proof.
  intros Hscroll Hmove. unfold scroll_randomly.
  erewrite bind_ok by reflexivity.
  set (n := (2 + entropy env (draws w) mod (5 - 2 + 1))%nat).
  edestruct (scroll_steps_completes n) as (w' & -> & _ & Hs); [exact Hscroll | exact Hmove |].
  exists w', n. repeat split; [lia | | exact Hs].
  subst n. pose proof (Nat.mod_upper_bound (entropy env (draws w)) (5 - 2 + 1)). lia.
Qed.

End Fetch.

(** ** The extraction *)

Section Extraction.

Context (env : Env).

Lemma calm_probe_price selectors : keeps calm (probe_price env selectors).
Proof.
  induction selectors as [|selector rest IH]; simpl; keeps_with calm_prim.
  exact IH.
Qed.

Lemma calm_read_details rows details : keeps calm (read_details env rows details).
Proof.
  revert details. induction rows as [|row rest IH]; intros details; simpl;
    keeps_with calm_prim.
  apply IH.
Qed.

Lemma calm_extract_product_data : keeps calm (extract_product_data env).
Proof.
  unfold extract_product_data.
  keeps_with ltac:(first [ calm_prim | apply calm_probe_price
                         | apply calm_read_details ]).
Qed.

Lemma run_probe_price selectors w :
  (probe_price env selectors w).1 = Ok (head (omap (price_text (page w)) selectors)).
Proof.
  revert w. induction selectors as [|selector rest IH]; intros w; [done|].
  cbn [probe_price omap list_omap].
  set (body := try_except _ _).
  assert (Hbody : (body w).1 = Ok (price_text (page w) selector)).
  { unfold body, try_except, price_text, mbind, M_bind, await_page, await_value.
    cbn [fst snd].
    destruct (wait_for_selector (page w) selector 5000) as [[el|]|e]; try done.
    by destruct (inner_text el). }
  assert (Hcalm : keeps calm body) by (unfold body; keeps_with calm_prim).
  rewrite (bind_run _ _ _ _ Hbody).
  destruct (price_text (page w) selector) as [text|]; [done|].
  rewrite IH. by rewrite (calm_page _ _ (Hcalm w)).
Qed.

Lemma run_gather_texts features w :
  match mapM text_of features with
  | Some texts => (gather (λ f, await_value env (inner_text f)) features w).1 = Ok texts
  | None => ∃ e, (gather (λ f, await_value env (inner_text f)) features w).1 = Raise e
  end.
Proof.
  revert w. induction features as [|f rest IH]; intros w; [done|].
  cbn [gather mapM]. unfold mbind at 1, option_bind, text_of at 1.
  unfold mbind at 2 4, M_bind at 1 3, await_value at 1 3. cbn [fst snd].
  destruct (inner_text f) as [text|e]; cbn [fst snd]; [|eauto].
  specialize (IH (tick env w).2).
  unfold mbind, option_bind, M_bind, option_ret, mret in *.
  destruct (mapM text_of rest) as [texts|].
  - destruct (gather _ rest _) as [[l|e] w2]; cbn [fst snd] in *; by simplify_eq.
  - destruct IH as [e IH]. destruct (gather _ rest _) as [[l|e'] w2]; cbn [fst snd] in *;
      simplify_eq. eauto.
Qed.

Lemma run_read_details rows details w :
  (read_details env rows details w).1 = Ok (foldl add_detail details rows).
Proof.
  revert details w. induction rows as [|row rest IH]; intros details w; [done|].
  cbn [read_details foldl].
  set (body := try_except _ _).
  assert (Hbody : (body w).1 = Ok (add_detail details row)).
  { unfold body, try_except, add_detail, mbind, M_bind, await_value. cbn [fst snd].
    destruct (locator_inner_text row "th"); [|done].
    by destruct (locator_inner_text row "td"). }
  rewrite (bind_run _ _ _ _ Hbody). apply IH.
Qed.

Lemma run_rating w :
  (try_except (await_page env (λ p, locator_attribute p "span#acrPopover" "title" 5000))
     (λ _, mret None) w).1 = Ok (rating_of (page w)).
Proof.
  unfold try_except, rating_of, await_page, await_value. cbn [fst snd].
  by destruct (locator_attribute _ _ _ _).
Qed.

Lemma run_reviews_count w :
  (try_except
     (text ← await_page env (λ p, locator_text p "span#acrCustomerReviewText" 5000);
      mret (Some text))
     (λ _, mret None) w).1 = Ok (reviews_count_of (page w)).
Proof.
  unfold try_except, reviews_count_of, mbind, M_bind, await_page, await_value.
  cbn [fst snd]. by destruct (locator_text _ _ _).
Qed.

Lemma run_features w :
  (try_except
     (features ← await_page env (λ p, locator_all p "div#feature-bullets li");
      gather (λ f, await_value env (inner_text f)) features)
     (λ _, mret []) w).1 = Ok (features_of (page w)).
Proof.
  unfold try_except, features_of, mbind, M_bind, await_page, await_value.
  cbn [fst snd]. destruct (locator_all _ _) as [features|e]; [|done].
  pose proof (run_gather_texts features (tick env w).2) as H.
  destruct (mapM text_of features) as [texts|].
  - destruct (gather _ _ _) as [[l|e] w']; cbn [fst snd] in *; by simplify_eq.
  - destruct H as [e H].
    destruct (gather _ _ _) as [[l|e'] w']; cbn [fst snd] in *; by simplify_eq.
Qed.

Lemma run_details w :
  (try_except
     (details_table ← await_page env
        (λ p, locator_all p "table#productDetails_techSpec_section_1 tr");
      read_details env details_table ∅)
     (λ _, mret ∅) w).1 = Ok (details_of (page w)).
Proof.
  unfold try_except, details_of, mbind, M_bind, await_page, await_value.
  cbn [fst snd]. destruct (locator_all _ _) as [rows|e]; [|done].
  pose proof (run_read_details rows ∅ (tick env w).2) as H.
  destruct (read_details _ _ _ _) as [[d|e] w']; cbn [fst snd] in *; by simplify_eq.
Qed.

(** One step of a calm computation whose result is known. *)
Lemma bind_calm {A B} (m : M A) (f : A → M B) w a :
  keeps calm m → (m w).1 = Ok a →
  ∃ w', page w' = page w ∧ (m ≫= f) w = f a w'.
Proof.
  intros Hk Hr. exists (m w).2. split.
  - apply (calm_page w), Hk.
  - by apply bind_run.
Qed.

End Extraction.

Ltac calm_step kp_tac rs_tac :=
  lazymatch goal with
  | |- context [ mbind ?f ?m ?w ] =>
      let w' := fresh "w" in
      let Hp := fresh "Hp" in
      let Hr := fresh "Hr" in
      let Hk := fresh "Hk" in
      assert (Hk : keeps calm m) by kp_tac;
      eassert (Hr : (m w).1 = Ok _) by rs_tac;
      destruct (bind_calm m f w _ Hk Hr) as (w' & Hp & ->); clear Hk Hr
  end.

(** With the title on the page, the extraction returns a record, and every
    field but the time stamp is read off the page. *)
Lemma run_extract_product_data env w found t :
  is_shutting_down w = false →
  wait_for_selector (page w) "span#productTitle" 15000 = Ok found →
  locator_text (page w) "span#productTitle" default_timeout = Ok t →
  ∃ instant,
    (extract_product_data env w).1
    = Ok (Some (mkProduct t (price_of (page w)) (rating_of (page w))
                  (reviews_count_of (page w)) (features_of (page w))
                  (details_of (page w)) (page_url (page w))
                  (isoformat env instant))).
Proof.
  intros Hflag Hwait Htitle. unfold extract_product_data.
  unfold mbind at 1, M_bind at 1, get_flag at 1. rewrite Hflag.
  unfold try_except at 1.
  calm_step calm_prim ltac:(exact Hwait).
  calm_step calm_prim ltac:(unfold await_page; cbn; rewrite Hp, Htitle; reflexivity).
  calm_step ltac:(apply calm_probe_price) ltac:(apply run_probe_price).
  calm_step ltac:(keeps_with calm_prim) ltac:(apply run_rating).
  calm_step ltac:(keeps_with calm_prim) ltac:(apply run_reviews_count).
  calm_step ltac:(keeps_with calm_prim) ltac:(apply run_features).
  calm_step ltac:(keeps_with ltac:(first [calm_prim | apply calm_read_details]))
            ltac:(apply run_details).
  exists (now w6). unfold price_of, mbind, M_bind, datetime_now_isoformat. cbn.
  rewrite Hp5, Hp4, Hp3, Hp2, Hp1, Hp0, Hp. reflexivity.
Qed.

Lemma title_absent_extracts_nothing env w e :
  is_shutting_down w = false →
  wait_for_selector (page w) "span#productTitle" 15000 = Raise e →
  ∃ w', extract_product_data env w = (Ok None, w').
Proof.
  intros Hflag Hwait. unfold extract_product_data.
  unfold mbind at 1, M_bind at 1, get_flag at 1. rewrite Hflag.
  unfold try_except, mbind at 1, M_bind at 1, await_page at 1, await_value at 1.
  rewrite Hwait. eexists. reflexivity.
Qed.

Lemma head_omap_Some {A B} (f : A → option B) (l : list A) (b : B) :
  head (omap f l) = Some b ↔
  ∃ i a, l !! i = Some a ∧ f a = Some b
         ∧ ∀ j a', (j < i)%nat → l !! j = Some a' → f a' = None.
Proof.
  induction l as [|x l IH]; cbn.
  - split; [done|]. by intros (i & a & ? & _).
  - destruct (f x) as [b'|] eqn:Hx; cbn.
    + split.
      * intros [= ->]. exists 0%nat, x. repeat split; [done|]. intros j a' Hj. lia.
      * intros (i & a & Hi & Ha & Hbefore). destruct i as [|i].
        -- cbn in Hi. by simplify_eq.
        -- specialize (Hbefore 0%nat x ltac:(lia) eq_refl). by simplify_eq.
    + rewrite IH. split.
      * intros (i & a & Hi & Ha & Hbefore). exists (S i), a. repeat split; [done..|].
        intros [|j] a' Hj Hl; cbn in Hl; [by simplify_eq|].
        apply (Hbefore j); [lia|done].
      * intros (i & a & Hi & Ha & Hbefore). destruct i as [|i]; cbn in Hi; [by simplify_eq|].
        exists i, a. repeat split; [done..|].
        intros j a' Hj Hl. apply (Hbefore (S j)); [lia|done].
Qed.

Lemma head_omap_None {A B} (f : A → option B) (l : list A) :
  head (omap f l) = None ↔ Forall (λ a, f a = None) l.
Proof.
  induction l as [|x l IH]; cbn.
  - split; [by constructor|done].
  - destruct (f x) as [b'|] eqn:Hx; cbn.
    + split; [done|]. intros H. apply Forall_cons in H as [H _]. by simplify_eq.
    + rewrite IH. split; [by constructor|]. by intros [_ ?]%Forall_cons.
Qed.

(** ** The traversal and the persistence *)

Section Traversal.

Context (env : Env) (self : Crawler).

Lemma run_save_data data filename w :
  ∃ w', _save_data env self data filename w = (Ok (), w')
    ∧ products_data w' = products_data w
    ∧ page w' = page w
    ∧ is_shutting_down w' = is_shutting_down w
    ∧ flushes (trace w') = (output_path self filename, data) :: flushes (trace w)
    ∧ navigations (trace w') = navigations (trace w)
    ∧ files w' = match to_csv env (output_path self filename) (now w) with
                 | Ok _ => <[output_path self filename := data]> (files w)
                 | Raise _ => files w
                 end.
Proof.
  unfold _save_data, try_except, mbind, M_bind, write_csv.
  destruct (to_csv env _ (now w)); eexists; repeat split.
Qed.

Lemma run_save_incrementally w :
  ∃ w', save_incrementally env self w = (Ok (), w')
    ∧ products_data w' = products_data w
    ∧ page w' = page w
    ∧ is_shutting_down w' = is_shutting_down w
    ∧ navigations (trace w') = navigations (trace w)
    ∧ flushes (trace w') =
        (if (length (products_data w) mod 5 =? 0)%nat
         then [(batch_path env self w, products_data w)] else [])
        ++ flushes (trace w).
Proof.
  unfold save_incrementally, mbind at 1, M_bind at 1, get_products_data at 1.
  destruct (length (products_data w) mod 5 =? 0)%nat.
  - unfold mbind, M_bind, datetime_now_strftime.
    destruct (run_save_data (products_data w) ("products_" +:+ strftime env (now w) +:+ ".csv") w)
      as (w' & -> & ? & ? & ? & ? & ? & ?).
    exists w'. by repeat split.
  - exists w. by repeat split.
Qed.

Lemma run_random_longer_delay w :
  ∃ w', random_longer_delay env w = (Ok (), w') ∧ calm w w'.
Proof.
  unfold random_longer_delay, random_random, mbind, M_bind, draw, mret, M_ret.
  destruct (800 <? entropy env (draws w) mod 1000)%nat; eexists; by repeat split.
Qed.

(** A visit whose fetch and extraction return: the record found, if any,
    is appended, and the buffer is written when its length is a multiple
    of five. *)
Lemma run_visit_product full_url w c w1 found w2 :
  _safe_get env self full_url w = (Ok c, w1) →
  extract_product_data env w1 = (Ok found, w2) →
  ∃ w3, visit_product env self full_url w = (Ok (), w3)
    ∧ products_data w3 = products_data w ++ option_list found
    ∧ flushes (trace w3) =
        (if (length (products_data w3) mod 5 =? 0)%nat
         then [(batch_path env self w2, products_data w3)] else [])
        ++ flushes (trace w).
Proof.
  intros Hget Hextract.
  pose proof (quiet_safe_get env self full_url w) as [Hp1 _ Hf1].
  pose proof (calm_extract_product_data env w1) as [[Hp2 _ Hf2] _ _].
  rewrite Hget in Hp1, Hf1. rewrite Hextract in Hp2, Hf2. cbn [snd] in *.
  unfold visit_product.
  unfold mbind at 1, M_bind at 1. rewrite Hget.
  unfold mbind at 1, M_bind at 1. rewrite Hextract.
  unfold mbind at 1, M_bind at 1.
  assert (∃ w2', match found with
                 | Some product_data =>
                     products_data_append product_data ;;
                     logger Info ("Successfully scraped product: "
                                  +:+ Str.take 50 (title product_data) +:+ "...")
                 | None => mret ()
                 end w2 = (Ok (), w2')
               ∧ products_data w2' = products_data w ++ option_list found
               ∧ flushes (trace w2') = flushes (trace w)
               ∧ now w2' = now w2) as (w2' & -> & Hp3 & Hf3 & Hn3).
  { destruct found; eexists; (split; [reflexivity|]); cbn -[flushes];
      unfold flushes at 1; cbn [omap list_omap]; fold (flushes (trace w2));
      rewrite ?Hp2, ?Hp1, ?Hf2, ?Hf1, ?(right_id_L [] (++)); done. }
  destruct (run_save_incrementally w2') as (w3 & Hsave & Hp4 & _ & _ & _ & Hf4).
  unfold mbind at 1, M_bind at 1. rewrite Hsave.
  destruct (run_random_longer_delay w3) as (w4 & -> & [[Hp5 _ Hf5] _ _]).
  exists w4. split; [done|].
  rewrite Hp5, Hf5, Hp4, Hf4, Hp3, Hf3. split; [done|].
  unfold batch_path. by rewrite Hn3.
Qed.

Lemma crawl_products_cons product_url rest w :
  is_shutting_down w = false → product_url ≠ "" →
  crawl_products env self (Some product_url :: rest) w
  = crawl_products env self rest
      (try_except (visit_product env self (full_url_of self product_url))
         (processing_error (full_url_of self product_url)) w).2.
Proof.
  intros Hflag Hurl. cbn [crawl_products].
  unfold mbind at 1, M_bind at 1, get_flag at 1. rewrite Hflag.
  destruct product_url as [|a u]; [done|].
  unfold mbind, M_bind, try_except, processing_error.
  by destruct (visit_product _ _ _ _) as [[[]|e] w'].
Qed.

Lemma grows_append product_data : keeps grows (products_data_append product_data).
Proof.
  intros w. split; cbn.
  - by apply prefix_app_r.
  - by exists [].
Qed.

Lemma grows_save_incrementally : keeps grows (save_incrementally env self).
Proof.
  intros w.
  destruct (run_save_incrementally w) as (w' & -> & Hp & _ & _ & _ & Hf).
  split; cbn [snd]; [by rewrite Hp|].
  eexists. split; [exact Hf|].
  destruct (_ =? _)%nat; [|done]. constructor; [|done]. cbn. by rewrite Hp.
Qed.

Lemma grows_random_longer_delay : keeps grows (random_longer_delay env).
Proof.
  intros w. destruct (run_random_longer_delay w) as (w' & -> & [Hq _ _]).
  by apply grows_of_quiet.
Qed.

End Traversal.

Ltac grows_prim :=
  first [ apply grows_append | apply grows_save_incrementally
        | apply grows_random_longer_delay
        | apply keeps_grows_of_quiet, quiet_safe_get
        | apply keeps_grows_of_quiet, keeps_quiet_of_calm, calm_extract_product_data
        | apply keeps_grows_of_quiet; quiet_prim ].

Section Persistence.

Context (env : Env) (self : Crawler).

Lemma grows_visit_product full_url : keeps grows (visit_product env self full_url).
Proof. unfold visit_product. keeps_with grows_prim. Qed.

Lemma grows_crawl_products product_urls : keeps grows (crawl_products env self product_urls).
Proof.
  induction product_urls as [|product_url rest IH]; cbn [crawl_products];
    keeps_with ltac:(first [ grows_prim | apply grows_visit_product | exact IH ]).
Qed.

Lemma grows_visit_category_page category_url page_num max_pages :
  keeps grows (visit_category_page env self category_url page_num max_pages).
Proof.
  unfold visit_category_page.
  keeps_with ltac:(first [ grows_prim | apply grows_crawl_products ]).
Qed.

Lemma grows_crawl_pages category_url page_nums max_pages :
  keeps grows (crawl_pages env self category_url page_nums max_pages).
Proof.
  induction page_nums as [|page_num rest IH]; cbn [crawl_pages];
    keeps_with ltac:(first [ grows_prim | apply grows_visit_category_page | exact IH ]).
Qed.

(** Every write of a category crawl that returns holds a prefix of the
    list returned. *)
Lemma crawl_category_flushes category_url max_pages w products w1 :
  crawl_category env self category_url max_pages w = (Ok products, w1) →
  ∃ new, flushes (trace w1) = new ++ flushes (trace w)
         ∧ Forall (λ flush, flush.2 `prefix_of` products) new.
Proof.
  unfold crawl_category.
  unfold mbind at 1, M_bind at 1, get_flag at 1.
  destruct (is_shutting_down w); [done|].
  unfold mbind at 1, M_bind at 1.
  pose proof (quiet_create_page env w) as [_ _ Hf0].
  destruct (_create_page env w) as [[[]|e] w0]; [|done]. cbn [snd] in Hf0.
  unfold mbind at 1, M_bind at 1, set_products_data at 1.
  set (wa := mkWorld _ _ _ _ [] _ _).
  unfold mbind at 1, M_bind at 1, try_finally.
  set (body := try_except _ _).
  assert (Hbody : keeps grows body)
    by (unfold body; keeps_with ltac:(first [ grows_prim | apply grows_crawl_pages ])).
  specialize (Hbody wa). destruct (body wa) as [r wb]. cbn [snd] in Hbody.
  pose proof (quiet_page_close env wb) as [Hpc _ Hfc].
  destruct (page_close env wb) as [[[]|e] wc]; destruct r as [[]|e']; try done.
  cbn [snd] in *. unfold get_products_data. intros [= <- <-].
  destruct Hbody as [_ (new & Hnew & Hall)].
  exists new. split.
  - by rewrite Hfc, Hnew, <- Hf0.
  - by rewrite Hpc.
Qed.

End Persistence.

Lemma main_after_shutdown env w :
  is_shutting_down w = true →
  navigations (trace (main env w).2) = navigations (trace w).
Proof.
  intros Hflag. unfold main, try_finally, try_except.
  unfold crawl_category, mbind at 1, M_bind at 1, mbind at 1, M_bind at 1, get_flag at 1.
  rewrite Hflag.
  unfold raise, logger, emit, close, try_except, page_close, mbind, M_bind, emit, await_value.
  cbn. by destruct (close_page env (now w)) as [[]|e].
Qed.

(** ** The flag is monotone *)

Section Monotone.

Context (env : Env) (self : Crawler).

Lemma flag_stays_tick : keeps flag_stays (tick env).
Proof. intros w H. simpl. by rewrite H. Qed.

Lemma flag_stays_emit ev : keeps flag_stays (emit ev).
Proof. by intros w H. Qed.

Lemma flag_stays_await_value {A} (r : result A) : keeps flag_stays (await_value env r).
Proof. intros w H. simpl. by rewrite H. Qed.

Lemma flag_stays_await_page {A} (query : Page → result A) :
  keeps flag_stays (await_page env query).
Proof. intros w. apply flag_stays_await_value. Qed.

Lemma flag_stays_draw : keeps flag_stays (draw env).
Proof. by intros w H. Qed.

Lemma flag_stays_page_goto target : keeps flag_stays (page_goto env target).
Proof.
  intros w H. unfold page_goto. destruct (goto env target (now w)). simpl.
  by rewrite H.
Qed.

Lemma flag_stays_write_csv path data : keeps flag_stays (write_csv env path data).
Proof. intros w H. unfold write_csv. by destruct (to_csv env path (now w)). Qed.

Lemma flag_stays_set_products_data l : keeps flag_stays (set_products_data l).
Proof. by intros w H. Qed.

Lemma flag_stays_get_products_data : keeps flag_stays get_products_data.
Proof. by intros w H. Qed.

Lemma flag_stays_strftime : keeps flag_stays (datetime_now_strftime env).
Proof. by intros w H. Qed.

Lemma flag_stays_isoformat : keeps flag_stays (datetime_now_isoformat env).
Proof. by intros w H. Qed.

Lemma flag_stays_create_page : keeps flag_stays (_create_page env).
Proof.
  intros w H. unfold _create_page. destruct (new_page env (now w)); cbn; by rewrite H.
Qed.

Lemma flag_stays_page_close : keeps flag_stays (page_close env).
Proof.
  intros w H. unfold page_close, mbind, M_bind, emit, await_value, tick.
  cbn [fst snd is_shutting_down]. by rewrite H.
Qed.

Lemma flag_stays_read_page : keeps flag_stays (λ w, (Ok (page_url (page w)), w)).
Proof. by intros w H. Qed.

Ltac flag_prim :=
  first [ apply flag_stays_tick | apply flag_stays_emit | apply flag_stays_await_value
        | apply flag_stays_await_page | apply flag_stays_draw | apply flag_stays_page_goto
        | apply flag_stays_write_csv | apply flag_stays_set_products_data
        | apply flag_stays_get_products_data | apply flag_stays_strftime
        | apply flag_stays_isoformat | apply flag_stays_create_page
        | apply flag_stays_page_close | apply flag_stays_read_page ].

Lemma flag_stays_scroll_steps n : keeps flag_stays (scroll_steps env n).
Proof.
  induction n as [|n IH]; cbn [scroll_steps];
    keeps_with ltac:(first [ flag_prim | exact IH ]).
Qed.

Lemma flag_stays_safe_get target : keeps flag_stays (_safe_get env self target).
Proof.
  intros w. rewrite safe_get_unfold. revert w.
  unfold _safe_get_wrapped, scroll_randomly.
  keeps_with ltac:(first [ flag_prim | apply flag_stays_scroll_steps ]).
Qed.

Lemma flag_stays_probe_price selectors : keeps flag_stays (probe_price env selectors).
Proof.
  induction selectors as [|selector rest IH]; cbn [probe_price];
    keeps_with ltac:(first [ flag_prim | exact IH ]).
Qed.

Lemma flag_stays_read_details rows details :
  keeps flag_stays (read_details env rows details).
Proof.
  revert details. induction rows as [|row rest IH]; intros details; cbn [read_details];
    keeps_with ltac:(first [ flag_prim | apply IH ]).
Qed.

Lemma flag_stays_extract_product_data : keeps flag_stays (extract_product_data env).
Proof.
  unfold extract_product_data.
  keeps_with ltac:(first [ flag_prim | apply flag_stays_probe_price
                         | apply flag_stays_read_details ]).
Qed.

Lemma flag_stays_visit_product full_url : keeps flag_stays (visit_product env self full_url).
Proof.
  unfold visit_product.
  keeps_with ltac:(first [ flag_prim | apply flag_stays_safe_get
                         | apply flag_stays_extract_product_data ]).
Qed.

Lemma flag_stays_crawl_products product_urls :
  keeps flag_stays (crawl_products env self product_urls).
Proof.
  induction product_urls as [|product_url rest IH]; cbn [crawl_products];
    keeps_with ltac:(first [ flag_prim | apply flag_stays_visit_product | exact IH ]).
Qed.

Lemma flag_stays_visit_category_page category_url page_num max_pages :
  keeps flag_stays (visit_category_page env self category_url page_num max_pages).
Proof.
  unfold visit_category_page.
  keeps_with ltac:(first [ flag_prim | apply flag_stays_safe_get
                         | apply flag_stays_crawl_products ]).
Qed.

Lemma flag_stays_crawl_pages category_url page_nums max_pages :
  keeps flag_stays (crawl_pages env self category_url page_nums max_pages).
Proof.
  induction page_nums as [|page_num rest IH]; cbn [crawl_pages];
    keeps_with ltac:(first [ flag_prim | apply flag_stays_visit_category_page | exact IH ]).
Qed.

Lemma flag_stays_crawl_category category_url max_pages :
  keeps flag_stays (crawl_category env self category_url max_pages).
Proof.
  unfold crawl_category.
  keeps_with ltac:(first [ flag_prim | apply flag_stays_crawl_pages ]).
Qed.

End Monotone.

(** Over a whole run the flag, once set, stays set. *)
Lemma flag_stays_main env : keeps flag_stays (main env).
Proof.
  unfold main, close.
  keeps_with ltac:(first
    [ apply flag_stays_crawl_category | apply flag_stays_page_close
    | apply flag_stays_emit | apply flag_stays_strftime | apply flag_stays_write_csv ]).
Qed.

(** ** Appending strings *)

Lemma append_cons c a b : String c a +:+ b = String c (a +:+ b).
Proof. reflexivity. Qed.

Lemma append_assoc a b c : (a +:+ b) +:+ c = a +:+ (b +:+ c).
Proof. induction a as [|x a IH]; [done|]. by rewrite !append_cons, IH. Qed.

(** ** The fetch, up to its navigation *)

Section Navigation.

Context (env : Env) (self : Crawler).

Lemma calm_scroll_steps n : keeps calm (scroll_steps env n).
Proof.
  induction n as [|n IH]; simpl; unfold page_evaluate, page_mouse_move, random_random;
    keeps_with calm_prim; exact IH.
Qed.

Lemma calm_scroll_randomly : keeps calm (scroll_randomly env).
Proof.
  unfold scroll_randomly, randint.
  keeps_with ltac:(first [ calm_prim | apply calm_scroll_steps ]).
Qed.

Lemma navigations_page_goto target w :
  navigations (trace (page_goto env target w).2) = target :: navigations (trace w).
Proof. unfold page_goto. by destruct (goto env target (now w)). Qed.

(** A fetch begun with the flag unset starts one navigation, to its
    target, whether it returns or raises. *)
Lemma safe_get_navigates_once target w :
  is_shutting_down w = false →
  navigations (trace (_safe_get env self target w).2) = target :: navigations (trace w).
Proof.
  intros Hflag. rewrite safe_get_unfold. unfold _safe_get_wrapped.
  erewrite bind_ok by reflexivity. rewrite Hflag.
  unfold try_except.
  rewrite (bind_run (sleep env _) _ w ()) by reflexivity.
  set (w1 := (sleep env _ w).2).
  pose proof (navigations_page_goto target w1) as Hnav.
  change (navigations (trace w1)) with (navigations (trace w)) in Hnav.
  unfold mbind at 1, M_bind at 1.
  destruct (page_goto env target w1) as [[response|e] w2]; cbn [snd] in Hnav.
  - lazymatch goal with
    | |- context [ let (r, w') := ?k w2 in _ ] =>
        assert (Hk : keeps calm k)
          by (destruct response;
              keeps_with ltac:(first [ calm_prim | apply calm_scroll_randomly ]));
        specialize (Hk w2); destruct (k w2) as [[c|e] w3]
    end; cbn [snd] in Hk.
    + cbn [snd]. by rewrite (calm_navigations _ _ Hk).
    + destruct (reraise_logs target e w3) as (w4 & -> & Htrace). cbn [snd].
      rewrite Htrace. rewrite <- Hnav, <- (calm_navigations _ _ Hk). by destruct e.
  - destruct (reraise_logs target e w2) as (w4 & -> & Htrace). cbn [snd].
    rewrite Htrace, <- Hnav. by destruct e.
Qed.

Lemma reraise_world target e w :
  match e with
  | PlaywrightTimeoutError _ =>
      logger Warning ("Timeout on " +:+ target +:+ ". Retrying...") ;; raise e
  | _ => logger Error ("Error fetching " +:+ target +:+ ": " +:+ str e) ;; raise e
  end w = (@Raise string e, (emit (fetch_failure_log target e) w).2).
Proof. by destruct e. Qed.

(** The fetch of a target whose navigation answers, up to that answer:
    what is left is the rest of the [try] block, run on the page shown. *)
Lemma safe_get_answered target w response p (rest : option Response → M string) :
  is_shutting_down w = false →
  goto env target (S (now w)) = (Ok response, p) →
  try_except
    (sleep env (Uniform (1000 * (delay_range self).1) (1000 * (delay_range self).2)) ;;
     response ← page_goto env target;
     rest response)
    (λ e,
       match e with
       | PlaywrightTimeoutError _ =>
           logger Warning ("Timeout on " +:+ target +:+ ". Retrying...") ;; raise e
       | _ => logger Error ("Error fetching " +:+ target +:+ ": " +:+ str e) ;; raise e
       end) w
  = match rest response
            (mkWorld (is_shutting_down w || signal env (S (now w))
                      || signal env (S (S (now w))))
               (S (S (now w))) (draws w) p (products_data w) (files w)
               (Goto target :: Sleep (pre_request_delay self) :: trace w)) with
    | (Ok a, w') => (Ok a, w')
    | (Raise e, w') => (Raise e, (emit (fetch_failure_log target e) w').2)
    end.
Proof.
  intros Hflag Hgoto. unfold try_except.
  rewrite (bind_run (sleep env _) _ w ()) by reflexivity.
  erewrite bind_ok; [|unfold page_goto; cbn [sleep now snd]; 
                      change (now (sleep env _ w).2) with (S (now w));
                      rewrite Hgoto; reflexivity].
  cbn [tick snd is_shutting_down now draws products_data files trace
       sleep emit mbind M_bind].
  unfold pre_request_delay.
  destruct (rest response _) as [[a|e] w']; [reflexivity|].
  apply reraise_world.
Qed.

Lemma safe_get_body target w :
  is_shutting_down w = false →
  _safe_get env self target w =
  try_except
    (sleep env (Uniform (1000 * (delay_range self).1) (1000 * (delay_range self).2)) ;;
     response ← page_goto env target;
     match response with
     | None => raise (Exception "No response received")
     | Some response =>
         if (status response =? 503)%Z || (status response =? 429)%Z then
           logger Warning ("Rate limited on " +:+ target +:+ ". Waiting longer...") ;;
           sleep env (Uniform 20000 30000) ;;
           raise (Exception "Rate limited")
         else
           n ← await_page env (λ p, locator_count p captcha_selector);
           if (0 <? n)%nat then
             logger Warning "CAPTCHA detected. Waiting and retrying..." ;;
             sleep env (Uniform 30000 45000) ;;
             raise (Exception "CAPTCHA encountered")
           else
             t ← await_page env page_title;
             if Str.contains "robot check" (Str.lower t) then
               logger Warning "Robot check detected. Waiting and retrying..." ;;
               sleep env (Uniform 30000 45000) ;;
               raise (Exception "Robot check encountered")
             else
               scroll_randomly env ;;
               await_page env page_content
     end)
    (λ e,
       match e with
       | PlaywrightTimeoutError _ =>
           logger Warning ("Timeout on " +:+ target +:+ ". Retrying...") ;; raise e
       | _ => logger Error ("Error fetching " +:+ target +:+ ": " +:+ str e) ;; raise e
       end) w.
Proof.
  intros Hflag. rewrite safe_get_unfold. unfold _safe_get_wrapped.
  erewrite bind_ok by reflexivity. by rewrite Hflag.
Qed.

End Navigation.

(** ** The navigations of the loop over product links *)

#[global] Instance same_navigations_preorder : PreOrder same_navigations.
Proof.
  split.
  - by intros w.
  - intros w1 w2 w3 H12 H23. unfold same_navigations in *. congruence.
Qed.

Lemma same_navigations_of_calm {A} (m : M A) : keeps calm m → keeps same_navigations m.
Proof. intros H w. apply (calm_navigations _ _ (H w)). Qed.

Section Visits.

Context (env : Env) (self : Crawler).

Lemma same_navigations_append product_data :
  keeps same_navigations (products_data_append product_data).
Proof. by intros w. Qed.

Lemma same_navigations_save_incrementally :
  keeps same_navigations (save_incrementally env self).
Proof.
  intros w. by destruct (run_save_incrementally env self w) as (w' & -> & _ & _ & _ & ? & _).
Qed.

Lemma same_navigations_after_fetch :
  keeps same_navigations
    (product_data ← extract_product_data env;
     match product_data with
     | Some product_data =>
         products_data_append product_data ;;
         logger Info ("Successfully scraped product: "
                      +:+ Str.take 50 (title product_data) +:+ "...")
     | None => mret ()
     end ;;
     save_incrementally env self ;;
     random_longer_delay env).
Proof.
  keeps_with ltac:(first [ apply same_navigations_append
                         | apply same_navigations_save_incrementally
                         | apply same_navigations_of_calm, calm_extract_product_data
                         | apply same_navigations_of_calm;
                           first [ calm_prim
                                 | intros w;
                                   by destruct (run_random_longer_delay env w) as (? & -> & ?) ] ]).
Qed.

Lemma navigations_visit_product full_url w :
  is_shutting_down w = false →
  navigations (trace (try_except (visit_product env self full_url)
                        (processing_error full_url) w).2)
  = full_url :: navigations (trace w).
Proof.
  intros Hflag.
  pose proof (safe_get_navigates_once env self full_url w Hflag) as Hnav.
  unfold try_except, visit_product, mbind at 1, M_bind at 1.
  destruct (_safe_get env self full_url w) as [[c|e] w1]; cbn [snd] in Hnav.
  - pose proof (same_navigations_after_fetch w1) as Hrest.
    unfold same_navigations in Hrest.
    lazymatch goal with
    | |- context [ let (r, w') := ?k w1 in _ ] =>
        change (navigations (trace (k w1).2) = navigations (trace w1)) in Hrest;
        destruct (k w1) as [[[]|e] w2]
    end; cbn [snd] in *; by rewrite <- Hnav.
  - cbn [snd]. exact Hnav.
Qed.

(** The loop visits the links that are neither [None] nor empty, resolved,
    in their order, up to the point where it sees the flag set. *)
Lemma crawl_products_navigations product_urls w :
  let run := crawl_products env self product_urls w in
  run.1 = Ok ()
  ∧ ∃ visited,
      visited `prefix_of` (full_url_of self <$> visited_links product_urls)
      ∧ navigations (trace run.2) = rev visited ++ navigations (trace w)
      ∧ (is_shutting_down run.2 = false →
         visited = full_url_of self <$> visited_links product_urls).
Proof.
  cbv zeta. revert w.
  induction product_urls as [|product_url rest IH]; intros w.
  - split; [done|]. exists []. by repeat split.
  - destruct (is_shutting_down w) eqn:Hflag.
    + cbn [crawl_products]. erewrite bind_ok by reflexivity. rewrite Hflag.
      split; [done|]. exists []. split; [apply prefix_nil|]. split; [done|].
      cbn [snd mret M_ret]. by rewrite Hflag.
    + assert (Hskip : product_url = None ∨ product_url = Some EmptyString →
                crawl_products env self (product_url :: rest) w
                = crawl_products env self rest w).
      { intros Hempty. cbn [crawl_products]. erewrite bind_ok by reflexivity.
        rewrite Hflag. by destruct Hempty as [-> | ->]. }
      destruct product_url as [[|a href]|].
      * rewrite Hskip by auto. apply IH.
      * rewrite crawl_products_cons by done.
        set (full_url := full_url_of self (String a href)).
        pose proof (navigations_visit_product full_url w Hflag) as Hnav.
        set (w1 := (try_except _ _ w).2) in *.
        destruct (IH w1) as (Hok & visited & Hprefix & Hvisited & Hall).
        split; [exact Hok|]. exists (full_url :: visited).
        cbn [visited_links omap list_omap fmap list_fmap].
        fold (visited_links rest). fold full_url. split; [|split].
        -- by apply prefix_cons.
        -- rewrite Hvisited, Hnav. cbn [rev]. by rewrite <- app_assoc.
        -- intros Hend. by rewrite Hall.
      * rewrite Hskip by auto. apply IH.
Qed.

End Visits.

(** ** The events of the scroll sequence *)

#[global] Instance scrolling_preorder : PreOrder scrolling.
Proof.
  split.
  - intros w. by exists [].
  - intros w1 w2 w3 (new12 & H12 & Hall12) (new23 & H23 & Hall23).
    exists (new23 ++ new12). split.
    + by rewrite H23, H12, (assoc_L (++)).
    + by apply Forall_app.
Qed.

Section Scrolling.

Context (env : Env).





End Scrolling.


(** ** The classification of an attempt *)

Section Classification.

Context (env : Env) (self : Crawler).




End Classification.

(** ** Writes of the whole buffer *)

Lemma replay_app new2 new1 start :
  replay (new2 ++ new1) start = replay new1 start ≫= replay new2.
Proof.
  induction new2 as [|ev new2 IH]; cbn [app replay].
  - by destruct (replay new1 start).
  - rewrite IH. by destruct (replay new1 start).
Qed.

Lemma replay_plain new start :
  Forall (λ ev, match ev with ToCsv _ _ | Append _ => False | _ => True end) new →
  replay new start = Some start.
Proof.
  induction 1 as [|ev new Hev _ IH]; [done|].
  cbn [replay]. rewrite IH. by destruct ev.
Qed.

(** After a replay every write holds a prefix of the buffer, and a prefix
    of every later write. *)
Lemma replay_flushes events start buffer :
  replay events start = Some buffer →
  start `prefix_of` buffer
  ∧ Forall (λ flush, start `prefix_of` flush.2 ∧ flush.2 `prefix_of` buffer) (flushes events)
  ∧ ∀ i j later earlier,
      (i ≤ j)%nat → flushes events !! i = Some later → flushes events !! j = Some earlier →
      earlier.2 `prefix_of` later.2.
Proof.
  revert buffer. induction events as [|ev events IH]; intros buffer.
  - intros [= <-]. split; [done|]. split; [by constructor|]. by intros i j ? ? ? ?.
  - cbn [replay]. destruct (replay events start) as [before|]; [|done].
    cbn [mbind option_bind].
    destruct (IH before eq_refl) as (Hstart & Hall & Hchain).
    assert (Hgrow : before `prefix_of` buffer → ∀ ev', flushes (ev' :: events) = flushes events →
              start `prefix_of` buffer
              ∧ Forall (λ flush, start `prefix_of` flush.2 ∧ flush.2 `prefix_of` buffer)
                  (flushes (ev' :: events))
              ∧ ∀ i j later earlier,
                  (i ≤ j)%nat → flushes (ev' :: events) !! i = Some later →
                  flushes (ev' :: events) !! j = Some earlier →
                  earlier.2 `prefix_of` later.2).
    { intros Hpre ev' ->. split; [by etransitivity|]. split; [|done].
      eapply Forall_impl; [exact Hall|]. intros flush [? ?]. split; [done|].
      by etransitivity. }
    destruct ev; try (intros [= <-]; by apply Hgrow).
    + case_decide as Hdata; [|done]. intros [= <-]. subst data.
      split; [done|]. split.
      * change (flushes (ToCsv path before :: events))
          with ((path, before) :: flushes events).
        by constructor.
      * change (flushes (ToCsv path before :: events))
          with ((path, before) :: flushes events).
        intros [|i] [|j] later earlier Hij Hi Hj; cbn in Hi, Hj; simplify_eq.
        -- done.
        -- apply list_elem_of_lookup_2 in Hj.
           by destruct (proj1 (Forall_forall _ _) Hall earlier Hj).
        -- lia.
        -- apply (Hchain i j); [lia | done..].
    + intros [= <-]. apply Hgrow; [by apply prefix_app_r | done].
Qed.

#[global] Instance replays_preorder : PreOrder replays.
Proof.
  split.
  - intros w. by exists [].
  - intros w1 w2 w3 (new12 & H12 & Hr12) (new23 & H23 & Hr23).
    exists (new23 ++ new12). split.
    + by rewrite H23, H12, (assoc_L (++)).
    + rewrite replay_app, Hr12. exact Hr23.
Qed.

Section Replays.

Context (env : Env) (self : Crawler).

Lemma replays_plain {A} (m : M A) :
  (∀ w, products_data (m w).2 = products_data w
        ∧ ∃ new, trace (m w).2 = new ++ trace w
                 ∧ Forall (λ ev, match ev with ToCsv _ _ | Append _ => False | _ => True end)
                     new) →
  keeps replays m.
Proof.
  intros H w. destruct (H w) as (Hp & new & Htrace & Hnew).
  exists new. split; [done|]. by rewrite Hp, replay_plain.
Qed.

Lemma replays_still {A} (m : M A) :
  (∀ w, products_data (m w).2 = products_data w ∧ trace (m w).2 = trace w) →
  keeps replays m.
Proof.
  intros H. apply replays_plain. intros w. destruct (H w) as [Hp Htrace].
  split; [done|]. exists []. by rewrite Htrace.
Qed.

Lemma replays_emit ev :
  match ev with ToCsv _ _ | Append _ => False | _ => True end → keeps replays (emit ev).
Proof.
  intros Hev. apply replays_plain. intros w. split; [done|].
  exists [ev]. split; [done|]. by constructor.
Qed.

Lemma replays_tick : keeps replays (tick env).
Proof. by apply replays_still. Qed.

Lemma replays_await_value {A} (r : result A) : keeps replays (await_value env r).
Proof. by apply replays_still. Qed.

Lemma replays_await_page {A} (query : Page → result A) :
  keeps replays (await_page env query).
Proof. by apply replays_still. Qed.

Lemma replays_draw : keeps replays (draw env).
Proof. by apply replays_still. Qed.

Lemma replays_strftime : keeps replays (datetime_now_strftime env).
Proof. by apply replays_still. Qed.

Lemma replays_isoformat : keeps replays (datetime_now_isoformat env).
Proof. by apply replays_still. Qed.

Lemma replays_get_products_data : keeps replays get_products_data.
Proof. by apply replays_still. Qed.

Lemma replays_read_page : keeps replays (λ w, (Ok (page_url (page w)), w)).
Proof. by apply replays_still. Qed.

Lemma replays_page_goto target : keeps replays (page_goto env target).
Proof.
  apply replays_plain. intros w. unfold page_goto.
  destruct (goto env target (now w)). split; [done|].
  exists [Goto target]. split; [done|]. by constructor.
Qed.

Lemma replays_page_close : keeps replays (page_close env).
Proof.
  apply replays_plain. intros w. split; [done|].
  exists [ClosePage]. split; [done|]. by constructor.
Qed.

Lemma create_page_events w :
  products_data (_create_page env w).2 = products_data w
  ∧ ∃ new, trace (_create_page env w).2 = new ++ trace w
           ∧ Forall (λ ev, match ev with ToCsv _ _ | Append _ => False | _ => True end) new.
Proof.
  unfold _create_page.
  destruct (new_page env (now w)); (split; [done|]);
    eexists [_]; (split; [reflexivity|]); by constructor.
Qed.

Lemma replays_create_page : keeps replays (_create_page env).
Proof. apply replays_plain, create_page_events. Qed.

Lemma replays_append product_data : keeps replays (products_data_append product_data).
Proof. intros w. by exists [Append product_data]. Qed.

(** A write of [_save_data] that is handed the buffer. *)
Lemma replays_save_buffer filename w :
  replays w (_save_data env self (products_data w) filename w).2.
Proof.
  unfold _save_data, try_except, mbind, M_bind, write_csv.
  destruct (to_csv env _ (now w)); eexists [_; _]; (split; [reflexivity|]);
    cbn; by rewrite decide_True.
Qed.

Lemma replays_save_incrementally : keeps replays (save_incrementally env self).
Proof.
  intros w. unfold save_incrementally.
  erewrite bind_ok by reflexivity.
  destruct (_ =? _)%nat; [|reflexivity].
  erewrite bind_ok by reflexivity. apply replays_save_buffer.
Qed.

End Replays.

Ltac replays_prim :=
  first [ apply replays_tick | apply replays_await_value | apply replays_await_page
        | apply replays_draw | apply replays_strftime | apply replays_isoformat
        | apply replays_get_products_data | apply replays_read_page
        | apply replays_page_goto | apply replays_page_close | apply replays_create_page
        | apply replays_append | apply replays_save_incrementally
        | apply replays_emit; exact I ].

Section ReplaysRun.

Context (env : Env) (self : Crawler).

Lemma replays_scroll_steps n : keeps replays (scroll_steps env n).
Proof.
  induction n as [|n IH]; cbn [scroll_steps];
    unfold page_evaluate, page_mouse_move, sleep, random_random;
    keeps_with ltac:(first [ replays_prim | exact IH ]).
Qed.

Lemma replays_safe_get target : keeps replays (_safe_get env self target).
Proof.
  intros w. rewrite safe_get_unfold. revert w.
  unfold _safe_get_wrapped, scroll_randomly, randint, sleep, logger.
  keeps_with ltac:(first [ replays_prim | apply replays_scroll_steps ]).
Qed.

Lemma replays_probe_price selectors : keeps replays (probe_price env selectors).
Proof.
  induction selectors as [|selector rest IH]; cbn [probe_price];
    keeps_with ltac:(first [ replays_prim | exact IH ]).
Qed.

Lemma replays_read_details rows details : keeps replays (read_details env rows details).
Proof.
  revert details. induction rows as [|row rest IH]; intros details; cbn [read_details];
    keeps_with ltac:(first [ replays_prim | apply IH ]).
Qed.

Lemma replays_extract_product_data : keeps replays (extract_product_data env).
Proof.
  unfold extract_product_data, logger.
  keeps_with ltac:(first [ replays_prim | apply replays_probe_price
                         | apply replays_read_details ]).
Qed.

Lemma replays_visit_product full_url : keeps replays (visit_product env self full_url).
Proof.
  unfold visit_product, random_longer_delay, random_random, sleep, logger.
  keeps_with ltac:(first [ replays_prim | apply replays_safe_get
                         | apply replays_extract_product_data ]).
Qed.

Lemma replays_crawl_products product_urls :
  keeps replays (crawl_products env self product_urls).
Proof.
  induction product_urls as [|product_url rest IH]; cbn [crawl_products]; unfold logger;
    keeps_with ltac:(first [ replays_prim | apply replays_visit_product | exact IH ]).
Qed.

Lemma replays_visit_category_page category_url page_num max_pages :
  keeps replays (visit_category_page env self category_url page_num max_pages).
Proof.
  unfold visit_category_page, logger.
  keeps_with ltac:(first [ replays_prim | apply replays_safe_get
                         | apply replays_crawl_products ]).
Qed.

Lemma replays_crawl_pages category_url page_nums max_pages :
  keeps replays (crawl_pages env self category_url page_nums max_pages).
Proof.
  induction page_nums as [|page_num rest IH]; cbn [crawl_pages]; unfold logger;
    keeps_with ltac:(first [ replays_prim | apply replays_visit_category_page | exact IH ]).
Qed.

(** A category crawl that returns: what it added to the trace takes the
    empty buffer to the list returned, every write whole. *)
Lemma crawl_category_replays category_url max_pages w products w1 :
  crawl_category env self category_url max_pages w = (Ok products, w1) →
  products = products_data w1
  ∧ ∃ new, trace w1 = new ++ trace w ∧ replay new [] = Some products.
Proof.
  unfold crawl_category.
  unfold mbind at 1, M_bind at 1, get_flag at 1.
  destruct (is_shutting_down w); [done|].
  unfold mbind at 1, M_bind at 1.
  destruct (create_page_events env w) as (_ & new0 & Htrace0 & Hplain0).
  destruct (_create_page env w) as [[[]|e] w0]; [|done]. cbn [snd] in Htrace0.
  unfold mbind at 1, M_bind at 1, set_products_data at 1.
  set (wa := mkWorld _ _ _ _ [] _ _).
  unfold mbind at 1, M_bind at 1, try_finally.
  set (body := try_except _ _).
  assert (Hbody : keeps replays body)
    by (unfold body, logger; keeps_with ltac:(first [ replays_prim | apply replays_crawl_pages ])).
  specialize (Hbody wa). destruct (body wa) as [r wb]. cbn [snd] in Hbody.
  destruct (replays_page_close env wb) as (newc & Htracec & Hrc).
  destruct (page_close env wb) as [[[]|e] wc]; destruct r as [[]|e']; try done.
  cbn [snd] in *. unfold get_products_data. intros [= <- <-].
  split; [done|].
  destruct Hbody as (newb & Htraceb & Hrb).
  exists (newc ++ newb ++ new0). split.
  - rewrite Htracec, Htraceb. subst wa. cbn [trace]. rewrite Htrace0.
    by rewrite <- !app_assoc.
  - rewrite !replay_app.
    rewrite (replay_plain new0 []) by done.
    cbn [mbind option_bind]. subst wa. cbn [products_data] in Hrb. rewrite Hrb. exact Hrc.
Qed.

End ReplaysRun.

(** ** The end of a run *)

Lemma replays_close env : keeps replays (close env).
Proof. unfold close, logger. keeps_with replays_prim. Qed.

Lemma quiet_close env : keeps quiet (close env).
Proof.
  unfold close.
  keeps_with ltac:(first [ apply quiet_page_close | quiet_prim ]).
Qed.

(** A run whose category crawl returns a list that is not empty: the list
    is saved, and the crawler closed. *)
Lemma main_saves env w products w1 :
  crawl_category env main_crawler main_category_url 2 w = (Ok products, w1) →
  products ≠ [] →
  (main env w).2
  = (close env
       (_save_data env main_crawler products
          ("electronics_products_" +:+ strftime env (now w1) +:+ ".csv") w1).2).2.
Proof.
  intros Hcrawl Hne. unfold main, try_finally, try_except.
  erewrite bind_ok by exact Hcrawl.
  destruct products as [|p ps]; [done|].
  erewrite bind_ok by reflexivity.
  destruct (run_save_data env main_crawler (p :: ps)
              ("electronics_products_" +:+ strftime env (now w1) +:+ ".csv") w1)
    as (ws & -> & _).
  cbn [snd]. by destruct (close env ws) as [[[]|e] wz].
Qed.

Lemma run_close env w :
  ∃ w' ev, close env w = (Ok (), w')
    ∧ trace w' = ev :: ClosePage :: trace w
    ∧ files w' = files w
    ∧ products_data w' = products_data w
    ∧ match close_page env (now w) with
      | Ok _ => ev = Log Info "Crawler resources cleaned up successfully"
      | Raise e => ev = Log Error ("Error closing crawler resources: " +:+ str e)
      end.
Proof.
  unfold close, try_except, page_close, mbind, M_bind, emit, await_value, logger, emit.
  cbn [now]. destruct (close_page env (now w)) as [[]|e]; eexists _, _; by repeat split.
Qed.

(** * The claims *)

(** ** C1: classification of one attempt *)



(** ** C2: retries *)

(** C2, on the code.  A fetch whose navigation times out is one attempt:
    the pre-request delay, one navigation, the warning, and the time-out
    raised to the caller.  The decorator waits for no back-off and makes no
    second attempt, since the call it wraps returns a coroutine and raises
    nothing. *)
Theorem timeout_fetch_is_one_attempt env self target w message p :
  is_shutting_down w = false →
  goto env target (S (now w)) = (Raise (PlaywrightTimeoutError message), p) →
  ∃ w', _safe_get env self target w = (Raise (PlaywrightTimeoutError message), w')
    ∧ trace w' = [ Log Warning ("Timeout on " +:+ target +:+ ". Retrying...");
                   Goto target;
                   Sleep (pre_request_delay self) ] ++ trace w.
Proof.
  intros Hflag Hgoto. rewrite safe_get_unfold.
  unfold _safe_get_wrapped, mbind at 1, M_bind at 1, get_flag at 1. rewrite Hflag.
  unfold try_except, mbind at 1, M_bind at 1.
  unfold sleep at 1, mbind at 1, M_bind at 1. cbn [emit tick].
  unfold mbind at 1, M_bind at 1, page_goto at 1. cbn [now]. rewrite Hgoto.
  eexists. split; reflexivity.
Qed.

Lemma timeout_fetch_is_one_attempt_witness :
  is_shutting_down Fixture.start = false
  ∧ goto Fixture.unreachable Fixture.thing_url 1 = (Raise Fixture.timed_out, Fixture.blank)
  ∧ ∃ w', _safe_get Fixture.unreachable main_crawler Fixture.thing_url Fixture.start
          = (Raise Fixture.timed_out, w')
      ∧ trace w' = [ Log Warning ("Timeout on " +:+ Fixture.thing_url +:+ ". Retrying...");
                     Goto Fixture.thing_url;
                     Sleep (pre_request_delay main_crawler) ] ++ trace Fixture.start.
Proof.
  split; [reflexivity|]. split; [reflexivity|].
  apply (timeout_fetch_is_one_attempt Fixture.unreachable main_crawler Fixture.thing_url
           Fixture.start "Timeout 5000ms exceeded." Fixture.blank); reflexivity.
Defined.

(** ** C3: shutdown *)

(** C3.  With the flag set, no fetch starts: the fetch raises before its
    delay and its navigation, the loop over product links and the loop
    over category pages break at their first check, the category crawl
    raises at its entry, each leaving the world as it was; and a whole run
    begun with the flag set starts no navigation. *)
Theorem shutdown_checkpoint_blocks_fetch env self w :
  is_shutting_down w = true →
  (∀ target, _safe_get env self target w = (Raise shutting_down, w))
  ∧ (∀ product_urls, crawl_products env self product_urls w = (Ok (), w))
  ∧ (∀ category_url page_nums max_pages,
       crawl_pages env self category_url page_nums max_pages w = (Ok (), w))
  ∧ (∀ category_url max_pages,
       crawl_category env self category_url max_pages w = (Raise shutting_down, w))
  ∧ navigations (trace (main env w).2) = navigations (trace w).
Proof.
  intros Hflag. repeat split.
  - intros target. rewrite safe_get_unfold.
    unfold _safe_get_wrapped, mbind, M_bind, get_flag. by rewrite Hflag.
  - intros [|product_url rest]; [done|].
    cbn [crawl_products]. unfold mbind, M_bind, get_flag. by rewrite Hflag.
  - intros category_url [|page_num rest] max_pages; [done|].
    cbn [crawl_pages]. unfold mbind, M_bind, get_flag. by rewrite Hflag.
  - intros category_url max_pages.
    unfold crawl_category, mbind, M_bind, get_flag. by rewrite Hflag.
  - by apply main_after_shutdown.
Qed.

Lemma shutdown_checkpoint_blocks_fetch_witness :
  is_shutting_down Fixture.stopping = true
  ∧ (∀ target, _safe_get Fixture.shop main_crawler target Fixture.stopping
               = (Raise shutting_down, Fixture.stopping))
  ∧ (∀ product_urls, crawl_products Fixture.shop main_crawler product_urls Fixture.stopping
                     = (Ok (), Fixture.stopping))
  ∧ (∀ category_url page_nums max_pages,
       crawl_pages Fixture.shop main_crawler category_url page_nums max_pages Fixture.stopping
       = (Ok (), Fixture.stopping))
  ∧ (∀ category_url max_pages,
       crawl_category Fixture.shop main_crawler category_url max_pages Fixture.stopping
       = (Raise shutting_down, Fixture.stopping))
  ∧ navigations (trace (main Fixture.shop Fixture.stopping).2)
    = navigations (trace Fixture.stopping).
Proof.
  split; [reflexivity|].
  apply (shutdown_checkpoint_blocks_fetch Fixture.shop main_crawler Fixture.stopping).
  reflexivity.
Defined.

(** A signal delivered during the pre-request delay of a fetch is seen at
    the next check only: the navigation under way is made, and the
    extraction that follows raises at its entry. *)
Lemma signal_during_delay_is_seen_at_next_check :
  let fetched :=
    _safe_get Fixture.interrupted_shop main_crawler Fixture.thing_url Fixture.start in
  fetched.1 = Ok "<html>thing</html>"
  ∧ navigations (trace fetched.2) = [Fixture.thing_url]
  ∧ is_shutting_down fetched.2 = true
  ∧ (extract_product_data Fixture.interrupted_shop fetched.2).1 = Raise shutting_down.
Proof. repeat split; vm_compute; reflexivity. Qed.

(** ** C4: the required title *)

(** C4.  When the fetch of a product page returns and the title element
    does not appear within its 15 s wait, the extraction returns the empty
    record; the visit of that product ends there, one navigation made and
    the buffer as it was, and the loop goes on from the world the visit
    left: it visits the remaining links in their order, all of them unless
    it sees the flag set. *)
Theorem missing_title_skips_product env self product_url rest w c w1 e :
  is_shutting_down w = false →
  product_url ≠ "" →
  _safe_get env self (full_url_of self product_url) w = (Ok c, w1) →
  is_shutting_down w1 = false →
  wait_for_selector (page w1) "span#productTitle" 15000 = Raise e →
  let full_url := full_url_of self product_url in
  let w2 := (extract_product_data env w1).2 in
  let w3 := (random_longer_delay env (save_incrementally env self w2).2).2 in
  let run := crawl_products env self (Some product_url :: rest) w in
  extract_product_data env w1 = (Ok None, w2)
  ∧ visit_product env self full_url w = (Ok (), w3)
  ∧ products_data w3 = products_data w
  ∧ navigations (trace w3) = full_url :: navigations (trace w)
  ∧ run = crawl_products env self rest w3
  ∧ ∃ visited,
      visited `prefix_of` (full_url_of self <$> visited_links rest)
      ∧ navigations (trace run.2) = rev visited ++ full_url :: navigations (trace w)
      ∧ (is_shutting_down run.2 = false →
         visited = full_url_of self <$> visited_links rest).
Proof.
  intros Hflag Hurl Hget Hflag1 Hwait full_url w2 w3 run.
  destruct (title_absent_extracts_nothing env w1 e Hflag1 Hwait) as [w2' Hextract].
  assert (w2' = w2) as -> by (subst w2; by rewrite Hextract).
  assert (Hvisit : visit_product env self full_url w = (Ok (), w3)).
  { unfold visit_product.
    erewrite bind_ok by exact Hget.
    erewrite bind_ok by exact Hextract. cbv beta iota.
    erewrite bind_ok by reflexivity.
    destruct (run_save_incrementally env self w2) as (wa & Hsave & _).
    erewrite bind_ok by exact Hsave.
    destruct (run_random_longer_delay env wa) as (wb & Hdelay & _).
    subst w3. rewrite Hsave. cbn [snd]. by rewrite Hdelay. }
  destruct (run_visit_product env self _ _ _ _ _ _ Hget Hextract) as (w3' & Hvisit' & Hp & _).
  assert (w3' = w3) as -> by (unfold full_url in Hvisit; congruence).
  pose proof (navigations_visit_product env self full_url w Hflag) as Hnav.
  unfold try_except in Hnav. rewrite Hvisit in Hnav. cbn [snd] in Hnav.
  assert (Hloop : run = crawl_products env self rest w3).
  { subst run. rewrite crawl_products_cons by done.
    unfold try_except. fold full_url. by rewrite Hvisit. }
  split; [done|]. split; [done|]. split; [by rewrite Hp, app_nil_r|].
  split; [done|]. split; [done|].
  rewrite Hloop.
  destruct (crawl_products_navigations env self rest w3) as (_ & visited & Hpre & Hvis & Hall).
  exists visited. split; [done|]. split; [by rewrite Hvis, Hnav | done].
Qed.

Lemma missing_title_skips_product_witness :
  let env := Fixture.untitled_shop in
  let w := Fixture.start in
  let w1 := (_safe_get env main_crawler Fixture.thing_url w).2 in
  is_shutting_down w = false
  ∧ "/dp/1" ≠ ""
  ∧ _safe_get env main_crawler (full_url_of main_crawler "/dp/1") w
    = (Ok "<html>thing</html>", w1)
  ∧ is_shutting_down w1 = false
  ∧ wait_for_selector (page w1) "span#productTitle" 15000 = Raise Fixture.timed_out
  ∧ let full_url := full_url_of main_crawler "/dp/1" in
    let w2 := (extract_product_data env w1).2 in
    let w3 := (random_longer_delay env (save_incrementally env main_crawler w2).2).2 in
    let run := crawl_products env main_crawler [Some "/dp/1"; Some "/dp/2"] w in
    extract_product_data env w1 = (Ok None, w2)
    ∧ visit_product env main_crawler full_url w = (Ok (), w3)
    ∧ products_data w3 = products_data w
    ∧ navigations (trace w3) = full_url :: navigations (trace w)
    ∧ run = crawl_products env main_crawler [Some "/dp/2"] w3
    ∧ ∃ visited,
        visited `prefix_of` (full_url_of main_crawler <$> visited_links [Some "/dp/2"])
        ∧ navigations (trace run.2) = rev visited ++ full_url :: navigations (trace w)
        ∧ (is_shutting_down run.2 = false →
           visited = full_url_of main_crawler <$> visited_links [Some "/dp/2"]).
Proof.
  intros env w w1.
  assert (H1 : is_shutting_down w = false) by reflexivity.
  assert (H2 : "/dp/1" ≠ "") by discriminate.
  assert (H3 : _safe_get env main_crawler (full_url_of main_crawler "/dp/1") w
               = (Ok "<html>thing</html>", w1)) by (vm_compute; reflexivity).
  assert (H4 : is_shutting_down w1 = false) by (vm_compute; reflexivity).
  assert (H5 : wait_for_selector (page w1) "span#productTitle" 15000 = Raise Fixture.timed_out)
    by (vm_compute; reflexivity).
  repeat (split; [assumption|]).
  exact (missing_title_skips_product env main_crawler "/dp/1" [Some "/dp/2"]
           w "<html>thing</html>" w1 Fixture.timed_out H1 H2 H3 H4 H5).
Defined.

(** ** C5: the optional fields *)

(** C5.  With the title on the page, the extraction returns a record and
    raises nothing.  Rating, review count, feature bullets and details are
    each what the page answers to the queries of that field alone, and
    absent or empty when its query fails; title, price and url are
    untouched by such a failure. *)
Theorem optional_fields_are_best_effort env w found t :
  is_shutting_down w = false →
  wait_for_selector (page w) "span#productTitle" 15000 = Ok found →
  locator_text (page w) "span#productTitle" default_timeout = Ok t →
  ∃ product,
    (extract_product_data env w).1 = Ok (Some product)
    ∧ title product = t
    ∧ price product = price_of (page w)
    ∧ rating product = rating_of (page w)
    ∧ reviews_count product = reviews_count_of (page w)
    ∧ features product = features_of (page w)
    ∧ details product = details_of (page w)
    ∧ url product = page_url (page w)
    ∧ (∀ e, locator_attribute (page w) "span#acrPopover" "title" 5000 = Raise e →
            rating product = None)
    ∧ (∀ e, locator_text (page w) "span#acrCustomerReviewText" 5000 = Raise e →
            reviews_count product = None)
    ∧ (∀ e, locator_all (page w) "div#feature-bullets li" = Raise e →
            features product = [])
    ∧ (∀ e, locator_all (page w) "table#productDetails_techSpec_section_1 tr" = Raise e →
            details product = ∅).
Proof.
  intros Hflag Hwait Htitle.
  destruct (run_extract_product_data env w found t Hflag Hwait Htitle) as [instant H].
  eexists. split; [exact H|]. cbn.
  unfold rating_of, reviews_count_of, features_of, details_of.
  repeat split; intros e ->; reflexivity.
Qed.

Lemma optional_fields_are_best_effort_witness :
  let w := Fixture.showing (Fixture.thing_page Fixture.thing_url) in
  is_shutting_down w = false
  ∧ wait_for_selector (page w) "span#productTitle" 15000
    = Ok (Some (Fixture.text_element "Thing"))
  ∧ locator_text (page w) "span#productTitle" default_timeout = Ok "Thing"
  ∧ ∃ product,
      (extract_product_data Fixture.shop w).1 = Ok (Some product)
      ∧ title product = "Thing"
      ∧ price product = price_of (page w)
      ∧ rating product = rating_of (page w)
      ∧ reviews_count product = reviews_count_of (page w)
      ∧ features product = features_of (page w)
      ∧ details product = details_of (page w)
      ∧ url product = page_url (page w)
      ∧ (∀ e, locator_attribute (page w) "span#acrPopover" "title" 5000 = Raise e →
              rating product = None)
      ∧ (∀ e, locator_text (page w) "span#acrCustomerReviewText" 5000 = Raise e →
              reviews_count product = None)
      ∧ (∀ e, locator_all (page w) "div#feature-bullets li" = Raise e →
              features product = [])
      ∧ (∀ e, locator_all (page w) "table#productDetails_techSpec_section_1 tr" = Raise e →
              details product = ∅).
Proof.
  intros w. do 3 (split; [reflexivity|]).
  apply (optional_fields_are_best_effort Fixture.shop w
           (Some (Fixture.text_element "Thing")) "Thing"); reflexivity.
Defined.

(** ** C6: the price *)

(** C6, as stated, fails.  On a page whose first candidate exists with
    empty text and whose second candidate reads "$9.99", the first
    candidate that exists and yields non-empty text is the second, and the
    extraction takes the empty text of the first. *)
Lemma empty_price_text_is_taken :
  match (extract_product_data Fixture.shop
           (Fixture.showing (Fixture.blank_price_page Fixture.thing_url))).1 with
  | Ok (Some product) => price product = Some ""
  | _ => False
  end
  ∧ claimed_price (Fixture.blank_price_page Fixture.thing_url) = Some "$9.99".
Proof. split; vm_compute; reflexivity. Qed.

(** C6, amended.  The price is probed against the ordered list of exactly
    7 selectors, each with a 5 s wait, and the extraction takes the first
    candidate whose element is found and whose text can be read, be that
    text empty; the price is absent when no candidate is such. *)
Theorem price_is_first_readable_candidate env w found t :
  is_shutting_down w = false →
  wait_for_selector (page w) "span#productTitle" 15000 = Ok found →
  locator_text (page w) "span#productTitle" default_timeout = Ok t →
  length price_selectors = 7%nat
  ∧ ∃ product,
      (extract_product_data env w).1 = Ok (Some product)
      ∧ price product = head (omap (price_text (page w)) price_selectors)
      ∧ (∀ text,
           price product = Some text ↔
           ∃ i selector,
             price_selectors !! i = Some selector
             ∧ price_text (page w) selector = Some text
             ∧ ∀ j earlier, (j < i)%nat → price_selectors !! j = Some earlier →
                            price_text (page w) earlier = None)
      ∧ (price product = None ↔
         Forall (λ selector, price_text (page w) selector = None) price_selectors).
Proof.
  intros Hflag Hwait Htitle. split; [reflexivity|].
  destruct (run_extract_product_data env w found t Hflag Hwait Htitle) as [instant H].
  eexists. split; [exact H|]. cbn [price]. unfold price_of.
  split; [done|]. split.
  - intros text. apply head_omap_Some.
  - apply head_omap_None.
Qed.

Lemma price_is_first_readable_candidate_witness :
  let w := Fixture.showing (Fixture.blank_price_page Fixture.thing_url) in
  is_shutting_down w = false
  ∧ wait_for_selector (page w) "span#productTitle" 15000
    = Ok (Some (Fixture.text_element "Thing"))
  ∧ locator_text (page w) "span#productTitle" default_timeout = Ok "Thing"
  ∧ length price_selectors = 7%nat
  ∧ ∃ product,
      (extract_product_data Fixture.shop w).1 = Ok (Some product)
      ∧ price product = head (omap (price_text (page w)) price_selectors)
      ∧ (∀ text,
           price product = Some text ↔
           ∃ i selector,
             price_selectors !! i = Some selector
             ∧ price_text (page w) selector = Some text
             ∧ ∀ j earlier, (j < i)%nat → price_selectors !! j = Some earlier →
                            price_text (page w) earlier = None)
      ∧ (price product = None ↔
         Forall (λ selector, price_text (page w) selector = None) price_selectors).
Proof.
  intros w. do 3 (split; [reflexivity|]).
  apply (price_is_first_readable_candidate Fixture.shop w
           (Some (Fixture.text_element "Thing")) "Thing"); reflexivity.
Defined.

(** ** C7: the incremental flush *)

(** C7, as stated, fails.  In a run over two result pages of five
    products each, none of which has a title, nothing is accumulated, and
    the empty buffer is written ten times, once after each visit. *)
Lemma batches_written_with_nothing_accumulated :
  let w := (main Fixture.untitled_shop Fixture.start).2 in
  products_data w = []
  ∧ (λ flush, flush.2) <$> flushes (trace w) = replicate 10 [].
Proof. split; vm_compute; reflexivity. Qed.

(** C7, amended.  After a product visit whose fetch and extraction
    return, whether or not it added a record, the buffer is written to a
    batch file named after the time stamp exactly when its length is a
    multiple of 5: a buffer of 5 records is written, a buffer of 4 is
    not. *)
Theorem flush_when_buffer_multiple_of_five env self full_url w c w1 found w2 :
  _safe_get env self full_url w = (Ok c, w1) →
  extract_product_data env w1 = (Ok found, w2) →
  let w3 := (visit_product env self full_url w).2 in
  let buffer := products_data w ++ option_list found in
  products_data w3 = buffer
  ∧ ((length buffer mod 5 = 0)%nat →
     flushes (trace w3) = (batch_path env self w2, buffer) :: flushes (trace w))
  ∧ ((length buffer mod 5 ≠ 0)%nat → flushes (trace w3) = flushes (trace w))
  ∧ ((length buffer = 5)%nat →
     flushes (trace w3) = (batch_path env self w2, buffer) :: flushes (trace w))
  ∧ ((length buffer = 4)%nat → flushes (trace w3) = flushes (trace w)).
Proof.
  intros Hget Hextract w3 buffer.
  destruct (run_visit_product env self _ _ _ _ _ _ Hget Hextract) as (w3' & Hvisit & Hp & Hf).
  subst w3. rewrite Hvisit. cbn [snd]. rewrite Hp in Hf. fold buffer in Hf.
  split; [done|].
  assert (H0 : (length buffer mod 5 = 0)%nat →
               flushes (trace w3') = (batch_path env self w2, buffer) :: flushes (trace w)).
  { intros H. rewrite Hf, H. reflexivity. }
  assert (H1 : (length buffer mod 5 ≠ 0)%nat → flushes (trace w3') = flushes (trace w)).
  { intros H. rewrite Hf. apply Nat.eqb_neq in H. rewrite H. reflexivity. }
  repeat split; [done | done | |].
  - intros H. apply H0. by rewrite H.
  - intros H. apply H1. by rewrite H.
Qed.

Lemma flush_when_buffer_multiple_of_five_witness :
  let env := Fixture.shop in
  let w := Fixture.four_collected in
  let w1 := (_safe_get env main_crawler Fixture.thing_url w).2 in
  let found := returned (extract_product_data env w1).1 None in
  let w2 := (extract_product_data env w1).2 in
  _safe_get env main_crawler Fixture.thing_url w = (Ok "<html>thing</html>", w1)
  ∧ extract_product_data env w1 = (Ok found, w2)
  ∧ let w3 := (visit_product env main_crawler Fixture.thing_url w).2 in
    let buffer := products_data w ++ option_list found in
    products_data w3 = buffer
    ∧ ((length buffer mod 5 = 0)%nat →
       flushes (trace w3) = (batch_path env main_crawler w2, buffer) :: flushes (trace w))
    ∧ ((length buffer mod 5 ≠ 0)%nat → flushes (trace w3) = flushes (trace w))
    ∧ ((length buffer = 5)%nat →
       flushes (trace w3) = (batch_path env main_crawler w2, buffer) :: flushes (trace w))
    ∧ ((length buffer = 4)%nat → flushes (trace w3) = flushes (trace w)).
Proof.
  intros env w w1 found w2.
  assert (H1 : _safe_get env main_crawler Fixture.thing_url w = (Ok "<html>thing</html>", w1))
    by (vm_compute; reflexivity).
  assert (H2 : extract_product_data env w1 = (Ok found, w2)) by (vm_compute; reflexivity).
  do 2 (split; [assumption|]).
  exact (flush_when_buffer_multiple_of_five env main_crawler Fixture.thing_url w
           "<html>thing</html>" w1 found w2 H1 H2).
Defined.

(** ** C8: persistence *)

(** C8, as stated, fails.  In a run over two result pages of five products
    each, the five records collected first are held three times by the
    files the run leaves, and the five collected next twice: none is held
    exactly once. *)
Lemma records_written_more_than_once :
  let stored := files (main Fixture.shop Fixture.start).2 in
  let buffer := products_data (main Fixture.shop Fixture.start).2 in
  (λ r, copies r stored) <$> buffer = [3; 3; 3; 3; 3; 2; 2; 2; 2; 2]%nat.
Proof. vm_compute. reflexivity. Qed.

(** C8, amended.  Every write of a run holds the whole buffer as it
    stands when the write is made: replaying what the run added to the
    trace, appends and writes in their order, from the empty buffer, every
    write is the buffer replayed so far, and the replay ends with the list
    returned.  When the category crawl returns a list that is not empty and
    the last write succeeds, the run ends with that whole list in the final
    file, so that no record is lost; each earlier write holds a prefix of
    that list and of every later write, so that a record once written is
    written again by every later write. *)
Theorem final_save_writes_whole_buffer env w products w1 :
  crawl_category env main_crawler main_category_url 2 w = (Ok products, w1) →
  products ≠ [] →
  to_csv env (final_path env w1) (now w1) = Ok () →
  let w2 := (main env w).2 in
  files w2 !! final_path env w1 = Some products
  ∧ (∃ new, flushes (trace w2) = (final_path env w1, products) :: new ++ flushes (trace w)
            ∧ Forall (λ flush, flush.2 `prefix_of` products) new)
  ∧ ∃ events,
      trace w2 = events ++ trace w
      ∧ replay events [] = Some products
      ∧ ∀ i j later earlier,
          (i ≤ j)%nat → flushes events !! i = Some later → flushes events !! j = Some earlier →
          earlier.2 `prefix_of` later.2.
Proof.
  intros Hcrawl Hne Hdisk w2.
  destruct (crawl_category_flushes _ _ _ _ _ _ _ Hcrawl) as (new & Hnew & Hall).
  destruct (crawl_category_replays _ _ _ _ _ _ _ Hcrawl) as (Hbuffer & events1 & Htrace1 & Hreplay1).
  subst w2. rewrite (main_saves env w products w1 Hcrawl Hne).
  set (filename := "electronics_products_" +:+ strftime env (now w1) +:+ ".csv").
  change (final_path env w1) with (output_path main_crawler filename) in *.
  destruct (run_save_data env main_crawler products filename w1)
    as (ws & Hsave & Hps & _ & _ & Hfs & _ & Hfiles).
  rewrite Hdisk in Hfiles.
  pose proof (replays_save_buffer env main_crawler filename w1) as Hrs.
  rewrite <- Hbuffer, Hsave in Hrs. cbn [snd] in Hrs.
  rewrite Hsave. cbn [snd].
  pose proof (quiet_close env ws) as [Hpc Hfc Hflc].
  pose proof (replays_close env ws) as Hrc.
  set (wz := (close env ws).2) in *.
  split; [by rewrite Hfc, Hfiles, lookup_insert_eq|].
  split; [exists new; by rewrite Hflc, Hfs, Hnew|].
  destruct Hrs as (events2 & Htrace2 & Hreplay2).
  destruct Hrc as (events3 & Htrace3 & Hreplay3).
  assert (Hreplay : replay (events3 ++ events2 ++ events1) [] = Some products).
  { rewrite !replay_app, Hreplay1. cbn [mbind option_bind].
    rewrite Hbuffer, Hreplay2. cbn [mbind option_bind].
    rewrite Hreplay3. by rewrite Hpc, Hps. }
  exists (events3 ++ events2 ++ events1). split; [|split; [exact Hreplay|]].
  - by rewrite Htrace3, Htrace2, Htrace1, <- !app_assoc.
  - by destruct (replay_flushes _ _ _ Hreplay) as (_ & _ & Hchain).
Qed.

Lemma final_save_writes_whole_buffer_witness :
  let env := Fixture.shop in
  let w := Fixture.start in
  let crawled := crawl_category env main_crawler main_category_url 2 w in
  let products := returned crawled.1 [] in
  let w1 := crawled.2 in
  crawled = (Ok products, w1)
  ∧ products ≠ []
  ∧ to_csv env (final_path env w1) (now w1) = Ok ()
  ∧ let w2 := (main env w).2 in
    files w2 !! final_path env w1 = Some products
    ∧ (∃ new, flushes (trace w2) = (final_path env w1, products) :: new ++ flushes (trace w)
              ∧ Forall (λ flush, flush.2 `prefix_of` products) new)
    ∧ ∃ events,
        trace w2 = events ++ trace w
        ∧ replay events [] = Some products
        ∧ ∀ i j later earlier,
            (i ≤ j)%nat → flushes events !! i = Some later →
            flushes events !! j = Some earlier →
            earlier.2 `prefix_of` later.2.
Proof.
  intros env w crawled products w1.
  assert (H1 : crawled = (Ok products, w1)) by (vm_compute; reflexivity).
  assert (H2 : products ≠ []) by (vm_compute; discriminate).
  assert (H3 : to_csv env (final_path env w1) (now w1) = Ok ()) by reflexivity.
  do 3 (split; [assumption|]).
  exact (final_save_writes_whole_buffer env w products w1 H1 H2 H3).
Defined.

(** ** C9: the scroll sequence *)




(** ** C10: the flush condition after an empty record *)

(** C10.  After a product visit whose extraction returns the empty record
    the buffer is unchanged, and it is written again whenever its length
    is a multiple of 5, whatever was written before; with no record
    collected, the empty buffer is written. *)
Theorem flush_retested_after_empty_record env self full_url w c w1 w2 :
  _safe_get env self full_url w = (Ok c, w1) →
  extract_product_data env w1 = (Ok None, w2) →
  let w3 := (visit_product env self full_url w).2 in
  products_data w3 = products_data w
  ∧ ((length (products_data w) mod 5 = 0)%nat →
     flushes (trace w3)
     = (batch_path env self w2, products_data w) :: flushes (trace w))
  ∧ (products_data w = [] →
     flushes (trace w3) = (batch_path env self w2, []) :: flushes (trace w)).
Proof.
  intros Hget Hextract w3.
  destruct (run_visit_product env self _ _ _ _ _ _ Hget Hextract) as (w3' & Hvisit & Hp & Hf).
  subst w3. rewrite Hvisit. cbn [snd option_list] in *.
  rewrite app_nil_r in Hp. rewrite Hp in Hf.
  split; [done|]. split.
  - intros H. rewrite Hf, H. reflexivity.
  - intros H. rewrite Hf, H. reflexivity.
Qed.

Lemma flush_retested_after_empty_record_witness :
  let env := Fixture.untitled_shop in
  let w := Fixture.start in
  let w1 := (_safe_get env main_crawler Fixture.thing_url w).2 in
  let w2 := (extract_product_data env w1).2 in
  _safe_get env main_crawler Fixture.thing_url w = (Ok "<html>thing</html>", w1)
  ∧ extract_product_data env w1 = (Ok None, w2)
  ∧ let w3 := (visit_product env main_crawler Fixture.thing_url w).2 in
    products_data w3 = products_data w
    ∧ ((length (products_data w) mod 5 = 0)%nat →
       flushes (trace w3)
       = (batch_path env main_crawler w2, products_data w) :: flushes (trace w))
    ∧ (products_data w = [] →
       flushes (trace w3) = (batch_path env main_crawler w2, []) :: flushes (trace w)).
Proof.
  intros env w w1 w2.
  assert (H1 : _safe_get env main_crawler Fixture.thing_url w = (Ok "<html>thing</html>", w1))
    by (vm_compute; reflexivity).
  assert (H2 : extract_product_data env w1 = (Ok None, w2)) by (vm_compute; reflexivity).
  do 2 (split; [assumption|]).
  exact (flush_retested_after_empty_record env main_crawler Fixture.thing_url w
           "<html>thing</html>" w1 w2 H1 H2).
Defined.

(** * Further properties *)

(** ** Strings *)

Lemma prefix_append p a b : String.prefix p a = true → String.prefix p (a +:+ b) = true.
Proof.
  revert a. induction p as [|c p IH]; intros a.
  - intros _. by destruct (a +:+ b).
  - destruct a as [|x a]; [done|]. rewrite append_cons. cbn [String.prefix].
    destruct (ascii_dec c x); [apply IH | done].
Qed.

Lemma lacks_append c a b : lacks c (a +:+ b) = lacks c a && lacks c b.
Proof.
  induction a as [|x a IH]; [done|]. rewrite append_cons. simpl.
  rewrite IH. by destruct (Ascii.eqb x c).
Qed.

Lemma split_lacks sep s : lacks sep s = true → split sep s = [s].
Proof.
  induction s as [|c s IH]; [done|]. simpl.
  destruct (Ascii.eqb c sep); [done|]. simpl. intros H. by rewrite IH.
Qed.

Lemma split_join sep a b :
  lacks sep a = true → split sep (a +:+ String sep b) = a :: split sep b.
Proof.
  induction a as [|c a IH].
  - intros _. change (EmptyString +:+ String sep b) with (String sep b).
    simpl. by rewrite Ascii.eqb_refl.
  - rewrite append_cons. simpl.
    destruct (Ascii.eqb c sep); [done|]. simpl. intros H. by rewrite IH.
Qed.

Lemma lacks_join c d a b :
  lacks c a = true → Ascii.eqb d c = false → lacks c b = true →
  lacks c (a +:+ String d b) = true.
Proof. intros Ha Hd Hb. rewrite lacks_append, Ha. simpl. by rewrite Hd, Hb. Qed.

Lemma unpack2_other parts :
  length parts ≠ 2%nat → ∃ message, unpack2 parts = Raise (Exception message).
Proof.
  destruct parts as [|a [|b [|c parts]]]; cbn; intros H; try done; eauto.
Qed.

(** ** The choice of a proxy *)

Section Proxy.

Context (env : Env).

Lemma proxy_pool_nonempty (proxy_urls : list string) i x :
  proxy_urls !! i = Some x → ∃ first rest, proxy_urls = first :: rest.
Proof. destruct proxy_urls; [done|eauto]. Qed.

(** X1.  A proxy URL written [username:password@host:port], with neither
    [@] nor [:] inside its four parts, is parsed back into those parts:
    the server is [http://host:port], and the credentials are the user
    name and the password. *)
Theorem proxy_url_parses_to_its_parts proxy_urls w user pass host port :
  proxy_urls !! (entropy env (draws w) mod length proxy_urls)%nat
  = Some (proxy_url_of user pass host port) →
  lacks "@" user = true → lacks ":" user = true →
  lacks "@" pass = true → lacks ":" pass = true →
  lacks "@" host = true → lacks ":" host = true →
  lacks "@" port = true → lacks ":" port = true →
  (_get_random_proxy env proxy_urls w).1
  = Ok (Some (mkProxyConfig ("http://" +:+ host +:+ ":" +:+ port) user pass)).
Proof.
  intros Hchosen Hu1 Hu2 Hp1 Hp2 Hh1 Hh2 Ho1 Ho2.
  destruct (proxy_pool_nonempty _ _ _ Hchosen) as (first & rest & ->).
  unfold _get_random_proxy.
  erewrite bind_ok by reflexivity. cbv zeta. rewrite Hchosen. cbn [default].
  assert (Hat : split "@" (proxy_url_of user pass host port)
                = [user +:+ ":" +:+ pass; host +:+ ":" +:+ port]).
  { unfold proxy_url_of.
    replace (user +:+ ":" +:+ pass +:+ "@" +:+ host +:+ ":" +:+ port)
      with ((user +:+ ":" +:+ pass) +:+ String "@" (host +:+ ":" +:+ port)).
    2:{ rewrite !append_assoc. reflexivity. }
    rewrite split_join by (by apply lacks_join).
    by rewrite split_lacks by (by apply lacks_join). }
  assert (Hauth : split ":" (user +:+ ":" +:+ pass) = [user; pass]).
  { change (user +:+ ":" +:+ pass) with (user +:+ String ":" pass).
    rewrite split_join by done. by rewrite split_lacks. }
  assert (Haddr : split ":" (host +:+ ":" +:+ port) = [host; port]).
  { change (host +:+ ":" +:+ port) with (host +:+ String ":" port).
    rewrite split_join by done. by rewrite split_lacks. }
  unfold try_except, mbind, M_bind, lift, id. rewrite Hat. cbn [unpack2 fst snd].
  rewrite Hauth, Haddr. reflexivity.
Qed.

(** X2.  A chosen proxy URL that does not split into two parts at [@], or
    whose halves do not each split into two parts at [:], yields no proxy:
    the failure of the unpacking is logged as an error and [None] is
    returned. *)
Theorem malformed_proxy_is_dropped proxy_urls w proxy_url :
  proxy_urls !! (entropy env (draws w) mod length proxy_urls)%nat = Some proxy_url →
  (length (split "@" proxy_url) ≠ 2%nat
   ∨ ∃ auth host_port,
       split "@" proxy_url = [auth; host_port]
       ∧ (length (split ":" auth) ≠ 2%nat ∨ length (split ":" host_port) ≠ 2%nat)) →
  ∃ w' message,
    _get_random_proxy env proxy_urls w = (Ok None, w')
    ∧ trace w' = Log Error ("Error parsing proxy URL: " +:+ message) :: trace w.
Proof.
  intros Hchosen Hbad.
  destruct (proxy_pool_nonempty _ _ _ Hchosen) as (first & rest & ->).
  unfold _get_random_proxy. erewrite bind_ok by reflexivity. cbv zeta.
  rewrite Hchosen. cbn [default].
  unfold try_except, mbind, M_bind, lift, id.
  destruct Hbad as [Hat | (auth & host_port & Hat & Hbad)].
  - destruct (unpack2_other _ Hat) as [message ->]. by eexists _, _.
  - rewrite Hat. cbn [unpack2 fst snd].
    destruct Hbad as [Hbad | Hbad].
    + destruct (unpack2_other _ Hbad) as [message ->]. by eexists _, _.
    + destruct (unpack2 (split ":" auth)) as [credentials|e].
      * destruct (unpack2_other _ Hbad) as [message ->]. by eexists _, _.
      * destruct e; by eexists _, _.
Qed.

(** X3.  The choice of a proxy raises nothing, whatever the pool holds, and
    touches neither the page, the buffer, the files nor the flag; with an
    empty pool it returns [None] without drawing a random number. *)
Theorem proxy_choice_never_raises proxy_urls w :
  _get_random_proxy env [] w = (Ok None, w)
  ∧ ∃ chosen w',
      _get_random_proxy env proxy_urls w = (Ok chosen, w')
      ∧ page w' = page w ∧ products_data w' = products_data w ∧ files w' = files w
      ∧ is_shutting_down w' = is_shutting_down w.
Proof.
  split; [done|].
  destruct proxy_urls as [|first rest]; [by eexists _, _|].
  unfold _get_random_proxy. erewrite bind_ok by reflexivity. cbv zeta.
  unfold try_except, mbind, M_bind, lift.
  destruct (unpack2 (split "@" _)) as [halves|e]; [|by eexists _, _].
  destruct (unpack2 (split ":" halves.1)) as [credentials|e]; [|by eexists _, _].
  destruct (unpack2 (split ":" halves.2)) as [address|e]; by eexists _, _.
Qed.

End Proxy.

Lemma proxy_url_parses_to_its_parts_witness :
  Fixture.proxy_pool
    !! (entropy Fixture.shop (draws Fixture.start) mod length Fixture.proxy_pool)%nat
  = Some (proxy_url_of "customer" "secret" "proxy.example" "7777")
  ∧ lacks "@" "customer" = true ∧ lacks ":" "customer" = true
  ∧ lacks "@" "secret" = true ∧ lacks ":" "secret" = true
  ∧ lacks "@" "proxy.example" = true ∧ lacks ":" "proxy.example" = true
  ∧ lacks "@" "7777" = true ∧ lacks ":" "7777" = true
  ∧ (_get_random_proxy Fixture.shop Fixture.proxy_pool Fixture.start).1
    = Ok (Some (mkProxyConfig ("http://" +:+ "proxy.example" +:+ ":" +:+ "7777")
                  "customer" "secret")).
Proof.
  do 9 (split; [reflexivity|]).
  apply (proxy_url_parses_to_its_parts Fixture.shop Fixture.proxy_pool Fixture.start
           "customer" "secret" "proxy.example" "7777"); reflexivity.
Defined.

Lemma malformed_proxy_is_dropped_witness :
  let proxy_urls := ["proxy.example:7777"] in
  proxy_urls !! (entropy Fixture.shop (draws Fixture.start) mod length proxy_urls)%nat
  = Some "proxy.example:7777"
  ∧ (length (split "@" "proxy.example:7777") ≠ 2%nat
     ∨ ∃ auth host_port,
         split "@" "proxy.example:7777" = [auth; host_port]
         ∧ (length (split ":" auth) ≠ 2%nat ∨ length (split ":" host_port) ≠ 2%nat))
  ∧ ∃ w' message,
      _get_random_proxy Fixture.shop proxy_urls Fixture.start = (Ok None, w')
      ∧ trace w' = Log Error ("Error parsing proxy URL: " +:+ message)
                   :: trace Fixture.start.
Proof.
  intros proxy_urls.
  assert (H1 : proxy_urls
                 !! (entropy Fixture.shop (draws Fixture.start) mod length proxy_urls)%nat
               = Some "proxy.example:7777") by reflexivity.
  assert (H2 : length (split "@" "proxy.example:7777") ≠ 2%nat
               ∨ ∃ auth host_port,
                   split "@" "proxy.example:7777" = [auth; host_port]
                   ∧ (length (split ":" auth) ≠ 2%nat
                      ∨ length (split ":" host_port) ≠ 2%nat))
    by (left; vm_compute; lia).
  split; [exact H1|]. split; [exact H2|].
  exact (malformed_proxy_is_dropped Fixture.shop proxy_urls Fixture.start
           "proxy.example:7777" H1 H2).
Defined.

(** ** The fetch, path by path *)

Section Paths.

Context (env : Env) (self : Crawler).

(** X4.  A fetch begun with the flag unset starts exactly one navigation,
    to its target, whether it returns or raises: no attempt is repeated
    and no other address is visited. *)
Theorem fetch_navigates_once target w :
  is_shutting_down w = false →
  navigations (trace (_safe_get env self target w).2) = target :: navigations (trace w).
Proof. apply safe_get_navigates_once. Qed.

End Paths.

Section Blocked.

Context (env : Env) (self : Crawler).

(** X5.  A response with status 503 or 429 is answered by a warning, one
    wait of 20 to 30 seconds and the exception [Rate limited], which the
    handler logs as an error and raises again; the page is neither queried
    nor scrolled. *)
Theorem rate_limit_waits_then_raises target w response p :
  is_shutting_down w = false →
  goto env target (S (now w)) = (Ok (Some response), p) →
  status response = 503%Z ∨ status response = 429%Z →
  ∃ w', _safe_get env self target w = (Raise (Exception "Rate limited"), w')
        ∧ trace w' =
            [ Log Error ("Error fetching " +:+ target +:+ ": Rate limited");
              Sleep (Uniform 20000 30000);
              Log Warning ("Rate limited on " +:+ target +:+ ". Waiting longer...");
              Goto target;
              Sleep (pre_request_delay self) ] ++ trace w
        ∧ page w' = p.
Proof.
  intros Hflag Hgoto Hstatus.
  rewrite (safe_get_body env self _ _ Hflag).
  rewrite (safe_get_answered env self _ _ _ _ _ Hflag Hgoto). cbv beta iota.
  assert ((status response =? 503)%Z || (status response =? 429)%Z = true) as ->
    by (destruct Hstatus as [-> | ->]; reflexivity).
  eexists. split; [reflexivity|]. split; reflexivity.
Qed.

(** X6.  A page holding a CAPTCHA form is answered by a warning, one wait
    of 30 to 45 seconds and the exception [CAPTCHA encountered], logged
    as an error and raised again, with no scrolling. *)
Theorem captcha_waits_then_raises target w response p n :
  is_shutting_down w = false →
  goto env target (S (now w)) = (Ok (Some response), p) →
  status response ≠ 503%Z → status response ≠ 429%Z →
  locator_count p captcha_selector = Ok n → (0 < n)%nat →
  ∃ w', _safe_get env self target w = (Raise (Exception "CAPTCHA encountered"), w')
        ∧ trace w' =
            [ Log Error ("Error fetching " +:+ target +:+ ": CAPTCHA encountered");
              Sleep (Uniform 30000 45000);
              Log Warning "CAPTCHA detected. Waiting and retrying...";
              Goto target;
              Sleep (pre_request_delay self) ] ++ trace w
        ∧ page w' = p.
Proof.
  intros Hflag Hgoto H503 H429 Hcount Hn.
  rewrite (safe_get_body env self _ _ Hflag).
  rewrite (safe_get_answered env self _ _ _ _ _ Hflag Hgoto). cbv beta iota.
  assert ((status response =? 503)%Z || (status response =? 429)%Z = false) as ->
    by (apply orb_false_intro; by apply Z.eqb_neq).
  erewrite bind_ok
    by (unfold await_page, await_value; cbn [page]; rewrite Hcount; reflexivity).
  assert ((0 <? n)%nat = true) as -> by by apply Nat.ltb_lt.
  eexists. split; [reflexivity|]. split; reflexivity.
Qed.

(** X7.  A page with no CAPTCHA form whose title holds [robot check] in any
    letter case is answered by a warning, one wait of 30 to 45 seconds and
    the exception [Robot check encountered], logged as an error and raised
    again, with no scrolling. *)
Theorem robot_check_waits_then_raises target w response p t :
  is_shutting_down w = false →
  goto env target (S (now w)) = (Ok (Some response), p) →
  status response ≠ 503%Z → status response ≠ 429%Z →
  locator_count p captcha_selector = Ok 0%nat →
  page_title p = Ok t →
  Str.contains "robot check" (Str.lower t) = true →
  ∃ w', _safe_get env self target w = (Raise (Exception "Robot check encountered"), w')
        ∧ trace w' =
            [ Log Error ("Error fetching " +:+ target +:+ ": Robot check encountered");
              Sleep (Uniform 30000 45000);
              Log Warning "Robot check detected. Waiting and retrying...";
              Goto target;
              Sleep (pre_request_delay self) ] ++ trace w
        ∧ page w' = p.
Proof.
  intros Hflag Hgoto H503 H429 Hcount Htitle Hrobot.
  rewrite (safe_get_body env self _ _ Hflag).
  rewrite (safe_get_answered env self _ _ _ _ _ Hflag Hgoto). cbv beta iota.
  assert ((status response =? 503)%Z || (status response =? 429)%Z = false) as ->
    by (apply orb_false_intro; by apply Z.eqb_neq).
  erewrite bind_ok
    by (unfold await_page, await_value; cbn [page]; rewrite Hcount; reflexivity).
  cbv beta iota. change (0 <? 0)%nat with false. cbv iota.
  erewrite bind_ok
    by (unfold await_page, await_value; cbn [page tick snd]; rewrite Htitle; reflexivity).
  cbv beta. rewrite Hrobot.
  eexists. split; [reflexivity|]. split; reflexivity.
Qed.

End Blocked.

Section Unblocked.

Context (env : Env) (self : Crawler).

(** X8.  A page that passes every check and takes scrolling is scrolled
    between two and five times and then captured: the fetch returns its
    markup after one navigation. *)
Theorem unblocked_fetch_scrolls_then_captures target w response p t c :
  is_shutting_down w = false →
  goto env target (S (now w)) = (Ok (Some response), p) →
  status response ≠ 503%Z → status response ≠ 429%Z →
  locator_count p captcha_selector = Ok 0%nat →
  page_title p = Ok t →
  Str.contains "robot check" (Str.lower t) = false →
  evaluate p scroll_script = Ok () →
  mouse_move p = Ok () →
  page_content p = Ok c →
  ∃ w' n, _safe_get env self target w = (Ok c, w')
          ∧ (2 ≤ n ≤ 5)%nat
          ∧ scrolls (trace w') = (n + scrolls (trace w))%nat
          ∧ navigations (trace w') = target :: navigations (trace w)
          ∧ page w' = p.
Proof.
  intros Hflag Hgoto H503 H429 Hcount Htitle Hrobot Hscroll Hmove Hcontent.
  pose proof (safe_get_navigates_once env self target w Hflag) as Hnav.
  rewrite (safe_get_body _ _ _ _ Hflag) in *.
  rewrite (safe_get_answered _ _ _ _ _ _ _ Hflag Hgoto) in *. cbv beta iota in *.
  assert ((status response =? 503)%Z || (status response =? 429)%Z = false) as Hst
    by (apply orb_false_intro; by apply Z.eqb_neq).
  rewrite Hst in *.
  set (w2 := mkWorld _ _ _ p _ _ _) in *.
  assert (Hforms : await_page env (λ p, locator_count p captcha_selector) w2
                   = (Ok 0%nat, (tick env w2).2))
    by (unfold await_page, await_value; cbn [page w2]; by rewrite Hcount).
  rewrite (bind_ok _ _ _ _ _ Hforms) in *. cbv beta iota in *.
  change (0 <? 0)%nat with false in *. cbv iota in *.
  set (w3 := (tick env w2).2) in *.
  assert (Ht : await_page env page_title w3 = (Ok t, (tick env w3).2))
    by (unfold await_page, await_value; cbn [page w3 w2 tick snd]; by rewrite Htitle).
  rewrite (bind_ok _ _ _ _ _ Ht) in *. cbv beta in *. rewrite Hrobot in *.
  set (w4 := (tick env w3).2) in *.
  destruct (scroll_randomly_completes env w4 Hscroll Hmove) as (w5 & n & Hrun & Hn & Hs).
  pose proof (calm_scroll_randomly env w4) as [_ Hp5 _]. rewrite Hrun in Hp5. cbn [snd] in Hp5.
  rewrite (bind_ok _ _ _ _ _ Hrun) in *.
  unfold await_page, await_value in *. rewrite Hp5 in *. cbn [page w4 w3 w2 tick snd] in *.
  rewrite Hcontent in *. cbn [snd fst] in *.
  eexists _, n. split; [reflexivity|]. split; [exact Hn|].
  split; [exact Hs|]. split; [exact Hnav|]. exact Hp5.
Qed.

End Unblocked.

Lemma fetch_navigates_once_witness :
  is_shutting_down Fixture.start = false
  ∧ navigations (trace (_safe_get Fixture.unreachable main_crawler Fixture.thing_url
                          Fixture.start).2)
    = Fixture.thing_url :: navigations (trace Fixture.start).
Proof.
  split; [reflexivity|].
  apply (fetch_navigates_once Fixture.unreachable main_crawler Fixture.thing_url
           Fixture.start).
  reflexivity.
Defined.

Lemma rate_limit_waits_then_raises_witness :
  let env := Fixture.throttled in
  let w := Fixture.start in
  is_shutting_down w = false
  ∧ goto env Fixture.thing_url (S (now w)) = (Ok (Some (mkResponse 503)), Fixture.blank)
  ∧ (status (mkResponse 503) = 503%Z ∨ status (mkResponse 503) = 429%Z)
  ∧ ∃ w', _safe_get env main_crawler Fixture.thing_url w
          = (Raise (Exception "Rate limited"), w')
          ∧ trace w' =
              [ Log Error ("Error fetching " +:+ Fixture.thing_url +:+ ": Rate limited");
                Sleep (Uniform 20000 30000);
                Log Warning ("Rate limited on " +:+ Fixture.thing_url
                             +:+ ". Waiting longer...");
                Goto Fixture.thing_url;
                Sleep (pre_request_delay main_crawler) ] ++ trace w
          ∧ page w' = Fixture.blank.
Proof.
  intros env w.
  assert (H1 : is_shutting_down w = false) by reflexivity.
  assert (H2 : goto env Fixture.thing_url (S (now w))
               = (Ok (Some (mkResponse 503)), Fixture.blank)) by reflexivity.
  assert (H3 : status (mkResponse 503) = 503%Z ∨ status (mkResponse 503) = 429%Z)
    by (left; reflexivity).
  do 3 (split; [assumption|]).
  exact (rate_limit_waits_then_raises env main_crawler Fixture.thing_url w
           (mkResponse 503) Fixture.blank H1 H2 H3).
Defined.

Lemma captcha_waits_then_raises_witness :
  let env := Fixture.challenged in
  let w := Fixture.start in
  let p := Fixture.interstitial 1 "Amazon.com" in
  is_shutting_down w = false
  ∧ goto env Fixture.thing_url (S (now w)) = (Ok (Some (mkResponse 200)), p)
  ∧ status (mkResponse 200) ≠ 503%Z
  ∧ status (mkResponse 200) ≠ 429%Z
  ∧ locator_count p captcha_selector = Ok 1%nat
  ∧ (0 < 1)%nat
  ∧ ∃ w', _safe_get env main_crawler Fixture.thing_url w
          = (Raise (Exception "CAPTCHA encountered"), w')
          ∧ trace w' =
              [ Log Error ("Error fetching " +:+ Fixture.thing_url
                           +:+ ": CAPTCHA encountered");
                Sleep (Uniform 30000 45000);
                Log Warning "CAPTCHA detected. Waiting and retrying...";
                Goto Fixture.thing_url;
                Sleep (pre_request_delay main_crawler) ] ++ trace w
          ∧ page w' = p.
Proof.
  intros env w p.
  assert (H1 : is_shutting_down w = false) by reflexivity.
  assert (H2 : goto env Fixture.thing_url (S (now w)) = (Ok (Some (mkResponse 200)), p))
    by reflexivity.
  assert (H3 : status (mkResponse 200) ≠ 503%Z) by (simpl; lia).
  assert (H4 : status (mkResponse 200) ≠ 429%Z) by (simpl; lia).
  assert (H5 : locator_count p captcha_selector = Ok 1%nat) by reflexivity.
  assert (H6 : (0 < 1)%nat) by lia.
  do 6 (split; [assumption|]).
  exact (captcha_waits_then_raises env main_crawler Fixture.thing_url w
           (mkResponse 200) p 1%nat H1 H2 H3 H4 H5 H6).
Defined.

Lemma robot_check_waits_then_raises_witness :
  let env := Fixture.suspicious in
  let w := Fixture.start in
  let p := Fixture.interstitial 0 "Robot Check" in
  is_shutting_down w = false
  ∧ goto env Fixture.thing_url (S (now w)) = (Ok (Some (mkResponse 200)), p)
  ∧ status (mkResponse 200) ≠ 503%Z
  ∧ status (mkResponse 200) ≠ 429%Z
  ∧ locator_count p captcha_selector = Ok 0%nat
  ∧ page_title p = Ok "Robot Check"
  ∧ Str.contains "robot check" (Str.lower "Robot Check") = true
  ∧ ∃ w', _safe_get env main_crawler Fixture.thing_url w
          = (Raise (Exception "Robot check encountered"), w')
          ∧ trace w' =
              [ Log Error ("Error fetching " +:+ Fixture.thing_url
                           +:+ ": Robot check encountered");
                Sleep (Uniform 30000 45000);
                Log Warning "Robot check detected. Waiting and retrying...";
                Goto Fixture.thing_url;
                Sleep (pre_request_delay main_crawler) ] ++ trace w
          ∧ page w' = p.
Proof.
  intros env w p.
  assert (H1 : is_shutting_down w = false) by reflexivity.
  assert (H2 : goto env Fixture.thing_url (S (now w)) = (Ok (Some (mkResponse 200)), p))
    by reflexivity.
  assert (H3 : status (mkResponse 200) ≠ 503%Z) by (simpl; lia).
  assert (H4 : status (mkResponse 200) ≠ 429%Z) by (simpl; lia).
  assert (H5 : locator_count p captcha_selector = Ok 0%nat) by reflexivity.
  assert (H6 : page_title p = Ok "Robot Check") by reflexivity.
  assert (H7 : Str.contains "robot check" (Str.lower "Robot Check") = true)
    by (vm_compute; reflexivity).
  do 7 (split; [assumption|]).
  exact (robot_check_waits_then_raises env main_crawler Fixture.thing_url w
           (mkResponse 200) p "Robot Check" H1 H2 H3 H4 H5 H6 H7).
Defined.

Lemma unblocked_fetch_scrolls_then_captures_witness :
  let env := Fixture.shop in
  let w := Fixture.start in
  let p := Fixture.thing_page Fixture.thing_url in
  is_shutting_down w = false
  ∧ goto env Fixture.thing_url (S (now w)) = (Ok (Some (mkResponse 200)), p)
  ∧ status (mkResponse 200) ≠ 503%Z
  ∧ status (mkResponse 200) ≠ 429%Z
  ∧ locator_count p captcha_selector = Ok 0%nat
  ∧ page_title p = Ok "Amazon.com: Thing"
  ∧ Str.contains "robot check" (Str.lower "Amazon.com: Thing") = false
  ∧ evaluate p scroll_script = Ok ()
  ∧ mouse_move p = Ok ()
  ∧ page_content p = Ok "<html>thing</html>"
  ∧ ∃ w' n, _safe_get env main_crawler Fixture.thing_url w = (Ok "<html>thing</html>", w')
            ∧ (2 ≤ n ≤ 5)%nat
            ∧ scrolls (trace w') = (n + scrolls (trace w))%nat
            ∧ navigations (trace w') = Fixture.thing_url :: navigations (trace w)
            ∧ page w' = p.
Proof.
  intros env w p.
  assert (H1 : is_shutting_down w = false) by reflexivity.
  assert (H2 : goto env Fixture.thing_url (S (now w)) = (Ok (Some (mkResponse 200)), p))
    by (vm_compute; reflexivity).
  assert (H3 : status (mkResponse 200) ≠ 503%Z) by (simpl; lia).
  assert (H4 : status (mkResponse 200) ≠ 429%Z) by (simpl; lia).
  assert (H5 : locator_count p captcha_selector = Ok 0%nat) by reflexivity.
  assert (H6 : page_title p = Ok "Amazon.com: Thing") by reflexivity.
  assert (H7 : Str.contains "robot check" (Str.lower "Amazon.com: Thing") = false)
    by (vm_compute; reflexivity).
  assert (H8 : evaluate p scroll_script = Ok ()) by reflexivity.
  assert (H9 : mouse_move p = Ok ()) by reflexivity.
  assert (H10 : page_content p = Ok "<html>thing</html>") by reflexivity.
  do 10 (split; [assumption|]).
  exact (unblocked_fetch_scrolls_then_captures env main_crawler Fixture.thing_url w
           (mkResponse 200) p "Amazon.com: Thing" "<html>thing</html>"
           H1 H2 H3 H4 H5 H6 H7 H8 H9 H10).
Defined.

(** ** The extraction, failures included *)

Lemma try_except_returns {A} (body : M A) (handler : exn → M A) w :
  (∀ e w1, ∃ a w2, handler e w1 = (Ok a, w2)) →
  ∃ a w', try_except body handler w = (Ok a, w').
Proof.
  intros Hhandler. unfold try_except.
  destruct (body w) as [[a|e] w1]; [by eexists _, _ | apply Hhandler].
Qed.

(** X9.  With the flag unset the extraction raises nothing, whatever the
    page answers; it only reads: the page shown, the buffer and the files
    are as before, no navigation is started and nothing is written. *)
Theorem extraction_reads_and_never_fails env w :
  is_shutting_down w = false →
  ∃ found w', extract_product_data env w = (Ok found, w')
    ∧ page w' = page w
    ∧ products_data w' = products_data w
    ∧ files w' = files w
    ∧ navigations (trace w') = navigations (trace w)
    ∧ flushes (trace w') = flushes (trace w).
Proof.
  intros Hflag.
  pose proof (calm_extract_product_data env w) as [[Hp Hf Hfl] Hpage Hnav].
  assert (∃ found w', extract_product_data env w = (Ok found, w')) as (found & w' & Hrun).
  { unfold extract_product_data. erewrite bind_ok by reflexivity. rewrite Hflag.
    apply try_except_returns. intros e w1. by eexists _, _. }
  rewrite Hrun in *. cbn [snd] in *. by exists found, w'.
Qed.

Lemma extraction_reads_and_never_fails_witness :
  let env := Fixture.shop in
  let w := Fixture.showing (Fixture.untitled_page Fixture.thing_url) in
  is_shutting_down w = false
  ∧ ∃ found w', extract_product_data env w = (Ok found, w')
      ∧ page w' = page w
      ∧ products_data w' = products_data w
      ∧ files w' = files w
      ∧ navigations (trace w') = navigations (trace w)
      ∧ flushes (trace w') = flushes (trace w).
Proof.
  intros env w. split; [reflexivity|].
  apply (extraction_reads_and_never_fails env w). reflexivity.
Defined.

(** X10.  The feature bullets are read all or none: when every bullet
    can be read the field is their texts in order, and one bullet that
    cannot be read leaves the field empty. *)
Theorem bullets_are_read_all_or_none env w found t bullets :
  is_shutting_down w = false →
  wait_for_selector (page w) "span#productTitle" 15000 = Ok found →
  locator_text (page w) "span#productTitle" default_timeout = Ok t →
  locator_all (page w) "div#feature-bullets li" = Ok bullets →
  ∃ product,
    (extract_product_data env w).1 = Ok (Some product)
    ∧ (∀ texts, Forall2 (λ bullet text, inner_text bullet = Ok text) bullets texts →
                features product = texts)
    ∧ (∀ i bullet e, bullets !! i = Some bullet → inner_text bullet = Raise e →
                     features product = []).
Proof.
  intros Hflag Hwait Htitle Hbullets.
  destruct (run_extract_product_data env w found t Hflag Hwait Htitle) as [instant H].
  eexists. split; [exact H|]. cbn [features]. unfold features_of. rewrite Hbullets.
  split.
  - intros texts Hall.
    assert (mapM text_of bullets = Some texts) as ->; [|done].
    apply mapM_Some. eapply Forall2_impl; [exact Hall|].
    intros bullet text Hb. unfold text_of. by rewrite Hb.
  - intros i bullet e Hi Hb.
    assert (mapM text_of bullets = None) as ->; [|done].
    apply mapM_None, Exists_exists. exists bullet. split.
    + by eapply list_elem_of_lookup_2.
    + unfold text_of. by rewrite Hb.
Qed.

Lemma bullets_are_read_all_or_none_witness :
  let env := Fixture.shop in
  let w := Fixture.showing (Fixture.thing_page Fixture.thing_url) in
  let bullets := [Fixture.text_element "Light"; Fixture.text_element "Sturdy"] in
  is_shutting_down w = false
  ∧ wait_for_selector (page w) "span#productTitle" 15000
    = Ok (Some (Fixture.text_element "Thing"))
  ∧ locator_text (page w) "span#productTitle" default_timeout = Ok "Thing"
  ∧ locator_all (page w) "div#feature-bullets li" = Ok bullets
  ∧ ∃ product,
      (extract_product_data env w).1 = Ok (Some product)
      ∧ (∀ texts, Forall2 (λ bullet text, inner_text bullet = Ok text) bullets texts →
                  features product = texts)
      ∧ (∀ i bullet e, bullets !! i = Some bullet → inner_text bullet = Raise e →
                       features product = []).
Proof.
  intros env w bullets. do 4 (split; [reflexivity|]).
  apply (bullets_are_read_all_or_none env w (Some (Fixture.text_element "Thing")) "Thing"
           bullets); reflexivity.
Defined.

Lemma add_detail_unreadable details row :
  (∃ e, locator_inner_text row "th" = Raise e)
  ∨ (∃ e, locator_inner_text row "td" = Raise e) →
  add_detail details row = details.
Proof.
  unfold add_detail. intros [[e ->] | [e ->]]; [done|].
  by destruct (locator_inner_text row "th").
Qed.

Lemma add_detail_lookup details row label :
  details !! label = add_detail details row !! label
  ∨ ∃ l value, locator_inner_text row "th" = Ok l ∧ locator_inner_text row "td" = Ok value
               ∧ Str.strip l = label.
Proof.
  unfold add_detail.
  destruct (locator_inner_text row "th") as [l|]; [|by left].
  destruct (locator_inner_text row "td") as [value|]; [|by left].
  destruct (decide (Str.strip l = label)) as [Heq|Hne].
  - right. by exists l, value.
  - left. by rewrite lookup_insert_ne.
Qed.

Lemma foldl_add_detail_keeps details rows label :
  Forall (λ row, ∀ l value, locator_inner_text row "th" = Ok l →
                            locator_inner_text row "td" = Ok value →
                            Str.strip l ≠ label) rows →
  foldl add_detail details rows !! label = details !! label.
Proof.
  revert details. induction rows as [|row rows IH]; intros details Hall; [done|].
  apply Forall_cons in Hall as [Hrow Hall]. cbn [foldl]. rewrite IH by done.
  destruct (add_detail_lookup details row label) as [<- | (l & value & Hl & Hv & Heq)];
    [done|].
  by destruct (Hrow l value Hl Hv).
Qed.

(** X11.  The rows of the table of details are read one by one: a row
    whose label or value cannot be read is skipped and the other rows are
    kept, and a row that can be read is found under its stripped label, with
    its stripped value, unless a later row has the same label. *)
Theorem detail_rows_are_read_one_by_one env w found t before row after :
  is_shutting_down w = false →
  wait_for_selector (page w) "span#productTitle" 15000 = Ok found →
  locator_text (page w) "span#productTitle" default_timeout = Ok t →
  locator_all (page w) "table#productDetails_techSpec_section_1 tr"
  = Ok (before ++ row :: after) →
  ∃ product,
    (extract_product_data env w).1 = Ok (Some product)
    ∧ ((∃ e, locator_inner_text row "th" = Raise e)
       ∨ (∃ e, locator_inner_text row "td" = Raise e) →
       details product = foldl add_detail ∅ (before ++ after))
    ∧ (∀ label value,
         locator_inner_text row "th" = Ok label →
         locator_inner_text row "td" = Ok value →
         Forall (λ later, ∀ l v, locator_inner_text later "th" = Ok l →
                                 locator_inner_text later "td" = Ok v →
                                 Str.strip l ≠ Str.strip label) after →
         details product !! Str.strip label = Some (Str.strip value)).
Proof.
  intros Hflag Hwait Htitle Hrows.
  destruct (run_extract_product_data env w found t Hflag Hwait Htitle) as [instant H].
  eexists. split; [exact H|]. cbn [details]. unfold details_of. rewrite Hrows.
  rewrite !foldl_app. cbn [foldl]. split.
  - intros Hbad. by rewrite (add_detail_unreadable _ _ Hbad).
  - intros label value Hl Hv Hafter.
    rewrite foldl_add_detail_keeps by done.
    unfold add_detail. rewrite Hl, Hv. apply lookup_insert_eq.
Qed.

Lemma detail_rows_are_read_one_by_one_witness :
  let env := Fixture.shop in
  let w := Fixture.showing (Fixture.specified_page Fixture.thing_url) in
  let before := [Fixture.detail_row (Ok "Brand ") (Ok " Acme")] in
  let row := Fixture.detail_row (Raise Fixture.timed_out) (Ok "?") in
  let after := [Fixture.detail_row (Ok "Colour") (Ok "Red")] in
  is_shutting_down w = false
  ∧ wait_for_selector (page w) "span#productTitle" 15000
    = Ok (Some (Fixture.text_element "Thing"))
  ∧ locator_text (page w) "span#productTitle" default_timeout = Ok "Thing"
  ∧ locator_all (page w) "table#productDetails_techSpec_section_1 tr"
    = Ok (before ++ row :: after)
  ∧ ∃ product,
      (extract_product_data env w).1 = Ok (Some product)
      ∧ ((∃ e, locator_inner_text row "th" = Raise e)
         ∨ (∃ e, locator_inner_text row "td" = Raise e) →
         details product = foldl add_detail ∅ (before ++ after))
      ∧ (∀ label value,
           locator_inner_text row "th" = Ok label →
           locator_inner_text row "td" = Ok value →
           Forall (λ later, ∀ l v, locator_inner_text later "th" = Ok l →
                                   locator_inner_text later "td" = Ok v →
                                   Str.strip l ≠ Str.strip label) after →
           details product !! Str.strip label = Some (Str.strip value)).
Proof.
  intros env w before row after. do 4 (split; [reflexivity|]).
  apply (detail_rows_are_read_one_by_one env w (Some (Fixture.text_element "Thing"))
           "Thing" before row after); reflexivity.
Defined.

(** ** Saving *)

Section Save.

Context (env : Env) (self : Crawler).

(** X12.  A write the disk takes leaves the data under
    [output_dir/filename], replacing what was there, leaves the file at
    every other path as it was, and logs the number of records. *)
Theorem saved_file_holds_the_data data filename w :
  to_csv env (output_path self filename) (now w) = Ok () →
  ∃ w', _save_data env self data filename w = (Ok (), w')
    ∧ files w' !! (output_path self filename) = Some data
    ∧ (∀ path, path ≠ output_path self filename →
               files w' !! path = files w !! path)
    ∧ trace w' =
        [ Log Info ("Saved " +:+ pretty (length data) +:+ " records to "
                    +:+ output_path self filename);
          ToCsv (output_path self filename) data ] ++ trace w.
Proof.
  intros Hdisk. unfold _save_data, try_except, mbind, M_bind, write_csv.
  rewrite Hdisk. eexists. split; [reflexivity|]. cbn [files trace logger emit snd].
  split; [apply lookup_insert_eq|]. split; [|reflexivity].
  intros path Hpath. by apply lookup_insert_ne.
Qed.

(** X13.  A write the disk refuses is logged as an error and not raised:
    the save returns, and the files and the buffer are as they were. *)
Theorem failed_write_is_logged_not_raised data filename w e :
  to_csv env (output_path self filename) (now w) = Raise e →
  ∃ w', _save_data env self data filename w = (Ok (), w')
    ∧ files w' = files w
    ∧ products_data w' = products_data w
    ∧ trace w' =
        [ Log Error ("Error saving data to " +:+ filename +:+ ": " +:+ str e);
          ToCsv (output_path self filename) data ] ++ trace w.
Proof.
  intros Hdisk. unfold _save_data, try_except, mbind, M_bind, write_csv.
  rewrite Hdisk. eexists. by repeat split.
Qed.

End Save.

Lemma saved_file_holds_the_data_witness :
  let env := Fixture.shop in
  let w := Fixture.start in
  let data := [Fixture.thing] in
  to_csv env (output_path main_crawler "products.csv") (now w) = Ok ()
  ∧ ∃ w', _save_data env main_crawler data "products.csv" w = (Ok (), w')
      ∧ files w' !! (output_path main_crawler "products.csv") = Some data
      ∧ (∀ path, path ≠ output_path main_crawler "products.csv" →
                 files w' !! path = files w !! path)
      ∧ trace w' =
          [ Log Info ("Saved " +:+ pretty (length data) +:+ " records to "
                      +:+ output_path main_crawler "products.csv");
            ToCsv (output_path main_crawler "products.csv") data ] ++ trace w.
Proof.
  intros env w data. split; [reflexivity|].
  apply (saved_file_holds_the_data env main_crawler data "products.csv" w). reflexivity.
Defined.

Lemma failed_write_is_logged_not_raised_witness :
  let env := Fixture.full_disk in
  let w := Fixture.start in
  let data := [Fixture.thing] in
  to_csv env (output_path main_crawler "products.csv") (now w)
  = Raise Fixture.disk_full
  ∧ ∃ w', _save_data env main_crawler data "products.csv" w = (Ok (), w')
      ∧ files w' = files w
      ∧ products_data w' = products_data w
      ∧ trace w' =
          [ Log Error ("Error saving data to " +:+ "products.csv" +:+ ": "
                       +:+ str Fixture.disk_full);
            ToCsv (output_path main_crawler "products.csv") data ] ++ trace w.
Proof.
  intros env w data. split; [reflexivity|].
  apply (failed_write_is_logged_not_raised env main_crawler data "products.csv" w
           Fixture.disk_full).
  reflexivity.
Defined.

(** ** The loops *)

Section Loops.

Context (env : Env) (self : Crawler).

(** X14.  The loop over the links of a results page raises nothing.  It
    visits the links that are neither [None] nor empty, each resolved
    against the base URL, in their order and once each, up to the point
    where it sees the flag set; when the flag is still unset at the end,
    every such link was visited. *)
Theorem links_are_visited_in_order product_urls w :
  let run := crawl_products env self product_urls w in
  run.1 = Ok ()
  ∧ ∃ visited,
      visited `prefix_of` (full_url_of self <$> visited_links product_urls)
      ∧ navigations (trace run.2) = rev visited ++ navigations (trace w)
      ∧ (is_shutting_down run.2 = false →
         visited = full_url_of self <$> visited_links product_urls).
Proof. apply crawl_products_navigations. Qed.

Lemma crawl_pages_cons category_url page_num rest max_pages w :
  is_shutting_down w = false →
  crawl_pages env self category_url (page_num :: rest) max_pages w
  = crawl_pages env self category_url rest max_pages
      (try_except (visit_category_page env self category_url page_num max_pages)
         (λ e, logger Error ("Error processing category page "
                             +:+ pretty page_num +:+ ": " +:+ str e))
         (logger Info ("Processing category page " +:+ pretty page_num +:+ " of "
                       +:+ pretty max_pages) w).2).2.
Proof.
  intros Hflag. cbn [crawl_pages].
  erewrite bind_ok by reflexivity. rewrite Hflag.
  erewrite bind_ok by reflexivity.
  unfold mbind, M_bind, try_except.
  by destruct (visit_category_page _ _ _ _ _ _) as [[[]|e] w'].
Qed.

Lemma crawl_pages_returns category_url page_nums max_pages w :
  (crawl_pages env self category_url page_nums max_pages w).1 = Ok ().
Proof.
  revert w. induction page_nums as [|page_num rest IH]; intros w; [done|].
  destruct (is_shutting_down w) eqn:Hflag.
  - cbn [crawl_pages]. erewrite bind_ok by reflexivity. by rewrite Hflag.
  - rewrite crawl_pages_cons by done. apply IH.
Qed.

(** X15.  A results page whose product grid does not appear within its
    15 s wait is skipped: the failure is logged as an error, no product is
    visited, the buffer is as it was, and the loop goes on with the next
    page. *)
Theorem missing_grid_skips_page category_url page_num rest max_pages w c w1 e :
  let entered := (logger Info ("Processing category page " +:+ pretty page_num +:+ " of "
                               +:+ pretty max_pages) w).2 in
  is_shutting_down w = false →
  _safe_get env self (category_url +:+ "&page=" +:+ pretty page_num) entered = (Ok c, w1) →
  wait_for_selector (page w1) "div.s-main-slot" 15000 = Raise e →
  ∃ w2,
    crawl_pages env self category_url (page_num :: rest) max_pages w
    = crawl_pages env self category_url rest max_pages w2
    ∧ products_data w2 = products_data w
    ∧ trace w2 = Log Error ("Error processing category page " +:+ pretty page_num
                            +:+ ": " +:+ str e) :: trace w1.
Proof.
  intros entered Hflag Hget Hwait.
  rewrite crawl_pages_cons by done. fold entered.
  pose proof (quiet_safe_get env self (category_url +:+ "&page=" +:+ pretty page_num) entered)
    as [Hp _ _].
  rewrite Hget in Hp. cbn [snd] in Hp.
  eexists. split; [reflexivity|].
  unfold try_except, visit_category_page. cbv zeta.
  erewrite bind_ok by exact Hget.
  erewrite bind_raise
    by (unfold await_page, await_value; rewrite Hwait; reflexivity).
  split; [exact Hp | reflexivity].
Qed.

End Loops.

Lemma missing_grid_skips_page_witness :
  let env := Fixture.gridless in
  let w := Fixture.start in
  let entered := (logger Info ("Processing category page " +:+ pretty 1%Z +:+ " of "
                               +:+ pretty 2%Z) w).2 in
  let target := main_category_url +:+ "&page=" +:+ pretty 1%Z in
  let w1 := (_safe_get env main_crawler target entered).2 in
  is_shutting_down w = false
  ∧ _safe_get env main_crawler target entered = (Ok "<html></html>", w1)
  ∧ wait_for_selector (page w1) "div.s-main-slot" 15000 = Raise Fixture.timed_out
  ∧ ∃ w2,
      crawl_pages env main_crawler main_category_url [1%Z; 2%Z] 2 w
      = crawl_pages env main_crawler main_category_url [2%Z] 2 w2
      ∧ products_data w2 = products_data w
      ∧ trace w2 = Log Error ("Error processing category page " +:+ pretty 1%Z
                              +:+ ": " +:+ str Fixture.timed_out) :: trace w1.
Proof.
  intros env w entered target w1.
  assert (H1 : is_shutting_down w = false) by reflexivity.
  assert (H2 : _safe_get env main_crawler target entered = (Ok "<html></html>", w1))
    by (vm_compute; reflexivity).
  assert (H3 : wait_for_selector (page w1) "div.s-main-slot" 15000 = Raise Fixture.timed_out)
    by (vm_compute; reflexivity).
  do 3 (split; [assumption|]).
  exact (missing_grid_skips_page env main_crawler main_category_url 1%Z [2%Z] 2 w
           "<html></html>" w1 Fixture.timed_out H1 H2 H3).
Defined.

(** X16.  A link is resolved to an absolute address: when the base URL
    starts with [http] so does every resolved link; a link that starts
    with [http] is taken as it is, and resolving twice is resolving
    once. *)
Theorem resolved_links_are_absolute self product_url :
  Str.startswith (base_url self) "http" = true →
  Str.startswith (full_url_of self product_url) "http" = true
  ∧ full_url_of self (full_url_of self product_url) = full_url_of self product_url
  ∧ (Str.startswith product_url "http" = true → full_url_of self product_url = product_url).
Proof.
  intros Hbase.
  assert (Habs : Str.startswith (full_url_of self product_url) "http" = true).
  { unfold full_url_of.
    destruct (Str.startswith product_url "http") eqn:Hurl; cbn [negb]; [done|].
    by apply prefix_append. }
  split; [exact Habs|]. split.
  - unfold full_url_of at 1. by rewrite Habs.
  - intros Hurl. unfold full_url_of. by rewrite Hurl.
Qed.

Lemma resolved_links_are_absolute_witness :
  Str.startswith (base_url main_crawler) "http" = true
  ∧ Str.startswith (full_url_of main_crawler "/dp/1") "http" = true
  ∧ full_url_of main_crawler (full_url_of main_crawler "/dp/1")
    = full_url_of main_crawler "/dp/1"
  ∧ (Str.startswith "/dp/1" "http" = true → full_url_of main_crawler "/dp/1" = "/dp/1").
Proof.
  split; [reflexivity|].
  apply (resolved_links_are_absolute main_crawler "/dp/1"). reflexivity.
Defined.

(** ** A category crawl and a whole run *)

Section Category.

Context (env : Env) (self : Crawler).

Lemma run_create_page w p :
  new_page env (now w) = Ok p →
  _create_page env w
  = (Ok (), mkWorld (is_shutting_down w || signal env (S (now w))) (S (now w)) (draws w) p
              (products_data w) (files w) (NewPage :: trace w)).
Proof. intros H. unfold _create_page. by rewrite H. Qed.

Lemma run_crawl_body category_url page_nums max_pages w :
  ∃ w', try_except (crawl_pages env self category_url page_nums max_pages)
          (λ e, logger Error ("Error in category crawl: " +:+ str e)) w = (Ok (), w').
Proof.
  unfold try_except.
  pose proof (crawl_pages_returns env self category_url page_nums max_pages w) as H.
  destruct (crawl_pages _ _ _ _ _ _) as [[[]|e] w']; [by eexists|done].
Qed.

(** X17.  Once its page is created, a category crawl ends by closing that
    page, whatever happened in between.  It then returns the buffer;
    the only exception it can raise is the one raised by the closing. *)
Theorem category_crawl_ends_by_closing_page category_url max_pages w p :
  is_shutting_down w = false →
  new_page env (now w) = Ok p →
  let run := crawl_category env self category_url max_pages w in
  head (trace run.2) = Some ClosePage
  ∧ match run.1 with
    | Ok products => products = products_data run.2
    | Raise e => ∃ instant, close_page env instant = Raise e
    end.
Proof.
  intros Hflag Hnew. cbv zeta. unfold crawl_category.
  erewrite bind_ok by reflexivity. rewrite Hflag.
  erewrite bind_ok by (by apply run_create_page).
  erewrite bind_ok by reflexivity.
  lazymatch goal with
  | |- context [ mbind _ (try_finally _ _) ?w0 ] =>
      destruct (run_crawl_body category_url (page_range max_pages) max_pages w0)
        as [wb Hbody]
  end.
  unfold mbind, M_bind, try_finally. rewrite Hbody.
  unfold page_close, mbind, M_bind, emit, await_value. cbn [now].
  destruct (close_page env (now wb)) as [[]|e] eqn:Hclose; cbn [fst snd trace tick].
  - by split.
  - split; [done|]. by exists (now wb).
Qed.

(** X18.  With no page to crawl ([max_pages] zero or negative) a category
    crawl whose page is created and closed returns the empty list: no
    navigation is started and no file written. *)
Theorem no_pages_means_no_navigation category_url max_pages w p :
  (max_pages ≤ 0)%Z →
  is_shutting_down w = false →
  new_page env (now w) = Ok p →
  close_page env (S (now w)) = Ok () →
  ∃ w', crawl_category env self category_url max_pages w = (Ok [], w')
        ∧ navigations (trace w') = navigations (trace w)
        ∧ flushes (trace w') = flushes (trace w)
        ∧ files w' = files w.
Proof.
  intros Hmax Hflag Hnew Hclose. unfold crawl_category.
  erewrite bind_ok by reflexivity. rewrite Hflag.
  erewrite bind_ok by (by apply run_create_page).
  erewrite bind_ok by reflexivity.
  unfold page_range. replace (Z.to_nat max_pages) with 0%nat by lia.
  cbn [seq fmap list_fmap crawl_pages].
  unfold mbind, M_bind, try_finally, try_except, page_close, mbind, M_bind, emit,
    await_value, set_products_data, get_products_data, mret, M_ret.
  cbn [now snd]. rewrite Hclose. eexists. by repeat split.
Qed.

End Category.

Lemma category_crawl_ends_by_closing_page_witness :
  let env := Fixture.unreachable in
  let w := Fixture.start in
  is_shutting_down w = false
  ∧ new_page env (now w) = Ok Fixture.blank
  ∧ let run := crawl_category env main_crawler main_category_url 2 w in
    head (trace run.2) = Some ClosePage
    ∧ match run.1 with
      | Ok products => products = products_data run.2
      | Raise e => ∃ instant, close_page env instant = Raise e
      end.
Proof.
  intros env w. do 2 (split; [reflexivity|]).
  apply (category_crawl_ends_by_closing_page env main_crawler main_category_url 2 w
           Fixture.blank); reflexivity.
Defined.

Lemma no_pages_means_no_navigation_witness :
  let env := Fixture.shop in
  let w := Fixture.start in
  (0 ≤ 0)%Z
  ∧ is_shutting_down w = false
  ∧ new_page env (now w) = Ok Fixture.blank
  ∧ close_page env (S (now w)) = Ok ()
  ∧ ∃ w', crawl_category env main_crawler main_category_url 0 w = (Ok [], w')
          ∧ navigations (trace w') = navigations (trace w)
          ∧ flushes (trace w') = flushes (trace w)
          ∧ files w' = files w.
Proof.
  intros env w. split; [lia|]. do 3 (split; [reflexivity|]).
  apply (no_pages_means_no_navigation env main_crawler main_category_url 0 w Fixture.blank);
    [lia | reflexivity..].
Defined.

(** X19.  A run raises only what is raised before its [try]: when the
    construction of the crawler raises, or the registration of the
    handlers, the run raises that with nothing closed; otherwise it
    returns, and the last thing it does is the log line of [close], which
    reports either the clean-up or the failure of the closing. *)
Theorem main_raises_only_before_its_try env w :
  match construct env, register env with
  | Raise e, _ => asyncio_run_main env w = (Raise e, w)
  | Ok _, Raise e =>
      ∃ w', asyncio_run_main env w = (Raise e, w')
            ∧ trace w' = Log Info "Initializing crawler. Log file: data/crawler.log"
                         :: trace w
            ∧ files w' = files w
  | Ok _, Ok _ =>
      ∃ w' closing,
        asyncio_run_main env w = (Ok (), w')
        ∧ (closing = Log Info "Crawler resources cleaned up successfully"
           ∨ ∃ e, closing = Log Error ("Error closing crawler resources: " +:+ str e))
        ∧ head (trace w') = Some closing
  end.
Proof.
  unfold asyncio_run_main.
  destruct (construct env) as [[]|e]; [|done].
  erewrite bind_ok by reflexivity.
  erewrite bind_ok by (vm_compute; reflexivity).
  destruct (register env) as [[]|e]; [|by eexists].
  erewrite bind_ok by reflexivity.
  match goal with |- context [ main env ?w0 ] => generalize w0 end. intros w0.
  unfold main, try_finally.
  set (body := try_except _ _).
  assert (∃ w1, body w0 = (Ok (), w1)) as [w1 ->].
  { unfold body, try_except.
    lazymatch goal with
    | |- context [ mbind ?f ?m w0 ] => destruct (mbind f m w0) as [[[]|e] w1]
    end; [by eexists|].
    destruct e; by eexists. }
  destruct (run_close env w1) as (w' & ev & -> & Htrace & _ & _ & Hev).
  exists w', ev. split; [done|]. split.
  - destruct (close_page env (now w1)) as [[]|e]; [by left | right; by exists e].
  - by rewrite Htrace.
Qed.

(** X20.  When the category crawl returns the empty list, the run writes
    no final file: the files and the writes are those the crawl left. *)
Theorem empty_crawl_writes_no_file env w w1 :
  crawl_category env main_crawler main_category_url 2 w = (Ok [], w1) →
  files (main env w).2 = files w1
  ∧ flushes (trace (main env w).2) = flushes (trace w1).
Proof.
  intros Hcrawl. unfold main, try_finally, try_except.
  erewrite bind_ok by exact Hcrawl. unfold mret, M_ret. cbv beta iota.
  destruct (run_close env w1) as (w' & ev & -> & Htrace & Hfiles & _ & Hev).
  cbn [snd]. split; [done|]. rewrite Htrace.
  by destruct (close_page env (now w1)) as [[]|e]; subst ev.
Qed.

Lemma empty_crawl_writes_no_file_witness :
  let env := Fixture.unreachable in
  let w := Fixture.start in
  let w1 := (crawl_category env main_crawler main_category_url 2 w).2 in
  crawl_category env main_crawler main_category_url 2 w = (Ok [], w1)
  ∧ files (main env w).2 = files w1
  ∧ flushes (trace (main env w).2) = flushes (trace w1).
Proof.
  intros env w w1.
  assert (H1 : crawl_category env main_crawler main_category_url 2 w = (Ok [], w1))
    by (vm_compute; reflexivity).
  split; [exact H1|].
  exact (empty_crawl_writes_no_file env w w1 H1).
Defined.



(** X22.  [initiate_shutdown] logs one line and sets the flag; called
    before a fetch, an extraction or a category crawl it makes them raise
    [GracefulExit] with nothing done, and makes the loop over product
    links return at once. *)
Theorem initiate_shutdown_stops_crawler env self w :
  let w' := (initiate_shutdown w).2 in
  initiate_shutdown w = (Ok (), w')
  ∧ is_shutting_down w' = true
  ∧ trace w' = Log Info "Initiating graceful shutdown..." :: trace w
  ∧ (∀ target, (initiate_shutdown ;; _safe_get env self target) w
               = (Raise shutting_down, w'))
  ∧ (extract_product_data env w').1 = Raise shutting_down
  ∧ (∀ category_url max_pages,
       (initiate_shutdown ;; crawl_category env self category_url max_pages) w
       = (Raise shutting_down, w'))
  ∧ (∀ product_urls, (initiate_shutdown ;; crawl_products env self product_urls) w
                     = (Ok (), w')).
Proof.
  cbv zeta. split; [done|]. split; [done|]. split; [done|].
  split; [|split; [|split]].
  - intros target. erewrite bind_ok by reflexivity. rewrite safe_get_unfold.
    unfold _safe_get_wrapped. by erewrite bind_ok by reflexivity.
  - unfold extract_product_data. by erewrite bind_ok by reflexivity.
  - intros category_url max_pages. erewrite bind_ok by reflexivity.
    unfold crawl_category. by erewrite bind_ok by reflexivity.
  - intros [|product_url rest]; erewrite bind_ok by reflexivity; [done|].
    cbn [crawl_products]. by erewrite bind_ok by reflexivity.
Qed.

(** ** Signals *)

#[global] Instance heard_preorder env : PreOrder (heard env).
Proof.
  split.
  - intros w. split; [done | done | intros instant ?; lia].
  - intros w1 w2 w3 [Hc12 Hf12 Hs12] [Hc23 Hf23 Hs23]. split.
    + lia.
    + auto.
    + intros instant Hin Hsig.
      destruct (decide (instant ≤ now w2)%nat).
      * apply Hf23, (Hs12 instant); [lia | done].
      * apply (Hs23 instant); [lia | done].
Qed.

Section Heard.

Context (env : Env) (self : Crawler).

Lemma heard_still w w' :
  now w' = now w → is_shutting_down w' = is_shutting_down w → heard env w w'.
Proof. intros Hn Hf. split; [lia | congruence | intros instant ?; lia]. Qed.

Lemma heard_tick_of w w' :
  now w' = S (now w) →
  is_shutting_down w' = is_shutting_down w || signal env (S (now w)) →
  heard env w w'.
Proof.
  intros Hn Hf. split; [lia | |].
  - intros H. by rewrite Hf, H.
  - intros instant Hin Hsig. assert (instant = S (now w)) as -> by lia.
    rewrite Hf, Hsig. apply orb_true_r.
Qed.

Lemma heard_tick : keeps (heard env) (tick env).
Proof. intros w. by apply heard_tick_of. Qed.

Lemma heard_emit ev : keeps (heard env) (emit ev).
Proof. intros w. by apply heard_still. Qed.

Lemma heard_await_value {A} (r : result A) : keeps (heard env) (await_value env r).
Proof. intros w. by apply heard_tick_of. Qed.

Lemma heard_await_page {A} (query : Page → result A) :
  keeps (heard env) (await_page env query).
Proof. intros w. by apply heard_tick_of. Qed.

Lemma heard_draw : keeps (heard env) (draw env).
Proof. intros w. by apply heard_still. Qed.

Lemma heard_page_goto target : keeps (heard env) (page_goto env target).
Proof.
  intros w. unfold page_goto. destruct (goto env target (now w)). by apply heard_tick_of.
Qed.

Lemma heard_write_csv path data : keeps (heard env) (write_csv env path data).
Proof.
  intros w. unfold write_csv. by destruct (to_csv env path (now w)); apply heard_still.
Qed.

Lemma heard_set_products_data l : keeps (heard env) (set_products_data l).
Proof. intros w. by apply heard_still. Qed.

Lemma heard_get_products_data : keeps (heard env) get_products_data.
Proof. intros w. by apply heard_still. Qed.

Lemma heard_strftime : keeps (heard env) (datetime_now_strftime env).
Proof. intros w. by apply heard_still. Qed.

Lemma heard_isoformat : keeps (heard env) (datetime_now_isoformat env).
Proof. intros w. by apply heard_still. Qed.

Lemma heard_create_page : keeps (heard env) (_create_page env).
Proof.
  intros w. unfold _create_page. by destruct (new_page env (now w)); apply heard_tick_of.
Qed.

Lemma heard_page_close : keeps (heard env) (page_close env).
Proof. intros w. by apply heard_tick_of. Qed.

Lemma heard_read_page : keeps (heard env) (λ w, (Ok (page_url (page w)), w)).
Proof. intros w. by apply heard_still. Qed.

End Heard.

Ltac heard_prim :=
  first [ apply heard_tick | apply heard_emit | apply heard_await_value
        | apply heard_await_page | apply heard_draw | apply heard_page_goto
        | apply heard_write_csv | apply heard_set_products_data
        | apply heard_get_products_data | apply heard_strftime
        | apply heard_isoformat | apply heard_create_page
        | apply heard_page_close | apply heard_read_page ].

Section HeardRun.

Context (env : Env) (self : Crawler).

Lemma heard_scroll_steps n : keeps (heard env) (scroll_steps env n).
Proof.
  induction n as [|n IH]; cbn [scroll_steps];
    keeps_with ltac:(first [ heard_prim | exact IH ]).
Qed.

Lemma heard_safe_get target : keeps (heard env) (_safe_get env self target).
Proof.
  intros w. rewrite safe_get_unfold. revert w.
  unfold _safe_get_wrapped, scroll_randomly.
  keeps_with ltac:(first [ heard_prim | apply heard_scroll_steps ]).
Qed.

Lemma heard_probe_price selectors : keeps (heard env) (probe_price env selectors).
Proof.
  induction selectors as [|selector rest IH]; cbn [probe_price];
    keeps_with ltac:(first [ heard_prim | exact IH ]).
Qed.

Lemma heard_read_details rows details : keeps (heard env) (read_details env rows details).
Proof.
  revert details. induction rows as [|row rest IH]; intros details; cbn [read_details];
    keeps_with ltac:(first [ heard_prim | apply IH ]).
Qed.

Lemma heard_extract_product_data : keeps (heard env) (extract_product_data env).
Proof.
  unfold extract_product_data.
  keeps_with ltac:(first [ heard_prim | apply heard_probe_price
                         | apply heard_read_details ]).
Qed.

Lemma heard_visit_product full_url : keeps (heard env) (visit_product env self full_url).
Proof.
  unfold visit_product.
  keeps_with ltac:(first [ heard_prim | apply heard_safe_get
                         | apply heard_extract_product_data ]).
Qed.

Lemma heard_crawl_products product_urls :
  keeps (heard env) (crawl_products env self product_urls).
Proof.
  induction product_urls as [|product_url rest IH]; cbn [crawl_products];
    keeps_with ltac:(first [ heard_prim | apply heard_visit_product | exact IH ]).
Qed.

Lemma heard_visit_category_page category_url page_num max_pages :
  keeps (heard env) (visit_category_page env self category_url page_num max_pages).
Proof.
  unfold visit_category_page.
  keeps_with ltac:(first [ heard_prim | apply heard_safe_get
                         | apply heard_crawl_products ]).
Qed.

Lemma heard_crawl_pages category_url page_nums max_pages :
  keeps (heard env) (crawl_pages env self category_url page_nums max_pages).
Proof.
  induction page_nums as [|page_num rest IH]; cbn [crawl_pages];
    keeps_with ltac:(first [ heard_prim | apply heard_visit_category_page | exact IH ]).
Qed.

Lemma heard_crawl_category category_url max_pages :
  keeps (heard env) (crawl_category env self category_url max_pages).
Proof.
  unfold crawl_category.
  keeps_with ltac:(first [ heard_prim | apply heard_crawl_pages ]).
Qed.

End HeardRun.

Lemma heard_main env : keeps (heard env) (main env).
Proof.
  unfold main, close.
  keeps_with ltac:(first [ apply heard_crawl_category | heard_prim ]).
Qed.

(** X23.  No signal is lost: when a signal is delivered at a suspension
    point that a run passes, the flag is set when the run ends. *)
Theorem no_signal_is_lost env w instant :
  (now w < instant ≤ now (main env w).2)%nat →
  signal env instant = true →
  is_shutting_down (main env w).2 = true.
Proof. intros Hin Hsig. by apply (heard_signal _ _ _ (heard_main env w) instant). Qed.

Lemma no_signal_is_lost_witness :
  (now Fixture.start < 1 ≤ now (main Fixture.interrupted_shop Fixture.start).2)%nat
  ∧ signal Fixture.interrupted_shop 1 = true
  ∧ is_shutting_down (main Fixture.interrupted_shop Fixture.start).2 = true.
Proof.
  assert (H1 : (now Fixture.start < 1
                ≤ now (main Fixture.interrupted_shop Fixture.start).2)%nat)
    by (vm_compute; lia).
  assert (H2 : signal Fixture.interrupted_shop 1 = true) by reflexivity.
  split; [exact H1|]. split; [exact H2|].
  exact (no_signal_is_lost Fixture.interrupted_shop Fixture.start 1 H1 H2).
Defined.
